(** * Codebase assistant: relevance scoring and lightweight static extraction

    A shallow embedding of the analysis helpers of [agent.py]
    ([CodebaseScanner]) and of the route scanner of [main_3.py]
    ([APIDocumentation]), and the properties their specification states.

    Conventions of the embedding.
    - A Python [str] is a list of code points ([N]).  Whitespace, line
      boundaries and the UTF-8 decoder follow Python over all of Unicode.
      The flag [IGNORECASE] is that of [re] for the ASCII literals of the
      route patterns, the four characters outside ASCII that match [i], [s]
      and [k] included, and [upper] is exact on all that such a literal
      can match.  [lower] and the word class of [\b] are those of the ASCII
      range, other code points being caseless non-word characters.
    - The file system is a finite tree of directories and regular files,
      without symbolic links and without permission errors; paths are POSIX
      paths, [Path.suffix] is that of Python up to 3.12.  The answers of
      [expanduser], [resolve], [exists], [is_dir] and [is_file] are modelled,
      not the cases in which these calls themselves raise ([~user], a NUL
      character, a name beyond the limit of the system): what is proved of
      an operation is proved for the answers these checks give.
    - A Python call that may raise returns a [result].
    - [fuzzy_match] and [highlight_match] belong to the [connectonion]
      package, not to this repository: they are parameters.  Scores are
      integers, so the arithmetic on them is exact. *)

From Stdlib Require Import List ZArith NArith Bool Ascii String Lia Arith.
From Stdlib Require Import Strings.Byte.
From Stdlib Require Import Permutation Sorted DecimalString.
Import ListNotations.
Local Open Scope string_scope.
Local Open Scope list_scope.
Set Warnings "-register-all".

(** ** Results of calls that may raise *)

Inductive exn : Type :=
| FileNotFoundError
| IsADirectoryError
| UnicodeDecodeError
| ValueError
| NotADirectoryError.

Inductive result (A : Type) : Type :=
| Ok (a : A)
| Raise (e : exn).
Arguments Ok {A} a.
Arguments Raise {A} e.

Definition bind {A B : Type} (r : result A) (k : A -> result B) : result B :=
  match r with
  | Ok a => k a
  | Raise e => Raise e
  end.

Notation "x <- r ;; k" := (bind r (fun x => k))
  (at level 61, r at next level, right associativity).

(** ** Python strings *)

Module PyStr.

Definition char : Type := N.
Definition str : Type := list char.

(** A string literal of the source (ASCII). *)
Definition lit (s : string) : str := map N_of_ascii (list_ascii_of_string s).

Fixpoint eqb (s t : str) : bool :=
  match s, t with
  | [], [] => true
  | c :: s', d :: t' => N.eqb c d && eqb s' t'
  | _, _ => false
  end.

Definition mem (s : str) (l : list str) : bool := existsb (eqb s) l.

Definition in_range (lo hi c : N) : bool := (N.leb lo c && N.leb c hi)%bool.

(** [str.isspace] on one character: what [strip()], [split()] and the
    regular expression class [\s] call white space. *)
Definition is_space (c : char) : bool :=
  (in_range 9 13 c || in_range 28 32 c || N.eqb c 133 || N.eqb c 160
   || N.eqb c 5760 || in_range 8192 8202 c || in_range 8232 8233 c
   || N.eqb c 8239 || N.eqb c 8287 || N.eqb c 12288)%bool.

(** The line boundaries of [str.splitlines], [\r\n] apart. *)
Definition is_linebreak (c : char) : bool :=
  (in_range 10 13 c || in_range 28 30 c || N.eqb c 133
   || in_range 8232 8233 c)%bool.

Definition lower_char (c : char) : char :=
  if in_range 65 90 c then (c + 32)%N else c.
(** [str.upper] on one character: the ASCII letters, and the two other
    characters with an ASCII upper case, dotless i (U+0131) and long s
    (U+017F). *)
Definition upper_char (c : char) : char :=
  if in_range 97 122 c then (c - 32)%N
  else if N.eqb c 305 then 73%N
  else if N.eqb c 383 then 83%N
  else c.

Definition lower (s : str) : str := map lower_char s.
Definition upper (s : str) : str := map upper_char s.

Fixpoint startswith (s prefix : str) : bool :=
  match prefix, s with
  | [], _ => true
  | p :: prefix', c :: s' => N.eqb p c && startswith s' prefix'
  | _ :: _, [] => false
  end.

Fixpoint dropwhile (p : char -> bool) (s : str) : str :=
  match s with
  | [] => []
  | c :: s' => if p c then dropwhile p s' else s
  end.

Definition lstrip_by (p : char -> bool) (s : str) : str := dropwhile p s.
Definition rstrip_by (p : char -> bool) (s : str) : str :=
  rev (dropwhile p (rev s)).
Definition strip_by (p : char -> bool) (s : str) : str :=
  rstrip_by p (lstrip_by p s).

(** [s.strip()] *)
Definition strip (s : str) : str := strip_by is_space s.

(** [s.strip(chars)] *)
Definition strip_chars (chars s : str) : str :=
  strip_by (fun c => existsb (N.eqb c) chars) s.

(** [s.split()] : the maximal runs of characters that are not white space. *)
Fixpoint split_aux (s cur : str) : list str :=
  match s with
  | [] => match cur with [] => [] | _ => [rev cur] end
  | c :: s' =>
      if is_space c
      then match cur with
           | [] => split_aux s' []
           | _ => rev cur :: split_aux s' []
           end
      else split_aux s' (c :: cur)
  end.
Definition split (s : str) : list str := split_aux s [].

(** [s.split(sep)] for a separator of one character. *)
Fixpoint split_char_aux (sep : char) (s cur : str) : list str :=
  match s with
  | [] => [rev cur]
  | c :: s' =>
      if N.eqb c sep then rev cur :: split_char_aux sep s' []
      else split_char_aux sep s' (c :: cur)
  end.
Definition split_char (sep : char) (s : str) : list str :=
  split_char_aux sep s [].

(** [s.splitlines()] *)
Fixpoint splitlines_aux (s cur : str) : list str :=
  match s with
  | [] => match cur with [] => [] | _ => [rev cur] end
  | c :: s' =>
      if N.eqb c 13 then
        match s' with
        | d :: s'' =>
            if N.eqb d 10 then rev cur :: splitlines_aux s'' []
            else rev cur :: splitlines_aux s' []
        | [] => rev cur :: splitlines_aux s' []
        end
      else if is_linebreak c then rev cur :: splitlines_aux s' []
      else splitlines_aux s' (c :: cur)
  end.
Definition splitlines (s : str) : list str := splitlines_aux s [].

(** [s.replace(old, new)] for a non-empty [old]: occurrences are replaced
    from the left and do not overlap; [skip] counts the characters of the
    occurrence being replaced that are still to be passed over. *)
Fixpoint replace_aux (old new s : str) (skip : nat) : str :=
  match s with
  | [] => []
  | c :: s' =>
      match skip with
      | S k => replace_aux old new s' k
      | O =>
          if startswith s old
          then new ++ replace_aux old new s' (List.length old - 1)
          else c :: replace_aux old new s' 0
      end
  end.
Definition replace (old new s : str) : str := replace_aux old new s 0.

(** [sep.join(parts)] *)
Fixpoint join (sep : str) (parts : list str) : str :=
  match parts with
  | [] => []
  | [p] => p
  | p :: rest => p ++ sep ++ join sep rest
  end.

(** [c * n] for a string [c] *)
Fixpoint repeat_str (c : str) (n : nat) : str :=
  match n with
  | O => []
  | S k => c ++ repeat_str c k
  end.

(** [str(n)] and the format [{n}] of an integer. *)
Definition of_Z (z : Z) : str := lit (NilZero.string_of_int (Z.to_int z)).
Definition of_nat (n : nat) : str := of_Z (Z.of_nat n).

(** The format [{n:4d}]: right-justified in a field of [w] characters. *)
Definition of_Z_width (w : nat) (z : Z) : str :=
  let s := of_Z z in
  repeat_str (lit " ") (w - List.length s) ++ s.

(** The format [{n:.kf}] of an integer value: [k] zero decimals. *)
Definition of_Z_fixed (k : nat) (z : Z) : str :=
  of_Z z ++ match k with
            | O => []
            | _ => lit "." ++ repeat_str (lit "0") k
            end.

(** [s[:n]] for a literal [n >= 0] *)
Definition prefix (n : nat) (s : str) : str := firstn n s.

(** Truth value of a string: non-empty. *)
Definition truthy (s : str) : bool :=
  match s with [] => false | _ => true end.

End PyStr.
Import PyStr.

(** ** [bytes.decode("utf-8", errors)] *)

Module Utf8.

Inductive errors : Type := Strict | Ignore.

Definition cont (b : byte) : bool := in_range 128 191 (Byte.to_N b).
Definition payload (b : byte) : N := N.land (Byte.to_N b) 63.

(** What the handler does with an undecodable run: [strict] raises,
    [ignore] drops the run and goes on with [rest]. *)
Definition on_error (e : errors) (rest : result str) : result str :=
  match e with
  | Strict => Raise UnicodeDecodeError
  | Ignore => rest
  end.

Definition emit (c : char) (rest : result str) : result str :=
  s <- rest ;; Ok (c :: s).

(** The allowed range of the second byte after lead byte [n0]. *)
Definition second_ok (n0 : N) (b1 : byte) : bool :=
  let n1 := Byte.to_N b1 in
  if N.eqb n0 224 then in_range 160 191 n1
  else if N.eqb n0 237 then in_range 128 159 n1
  else if N.eqb n0 240 then in_range 144 191 n1
  else if N.eqb n0 244 then in_range 128 143 n1
  else in_range 128 191 n1.

Fixpoint decode (e : errors) (bs : list byte) : result str :=
  match bs with
  | [] => Ok []
  | b0 :: r0 =>
      let n0 := Byte.to_N b0 in
      if N.ltb n0 128 then emit n0 (decode e r0)
      else if (N.ltb n0 194 || N.ltb 244 n0)%bool then on_error e (decode e r0)
      else
        match r0 with
        | [] => on_error e (Ok [])
        | b1 :: r1 =>
            if negb (second_ok n0 b1) then on_error e (decode e r0)
            else if N.ltb n0 224 then
              emit (N.land n0 31 * 64 + payload b1)%N (decode e r1)
            else
              match r1 with
              | [] => on_error e (Ok [])
              | b2 :: r2 =>
                  if negb (cont b2) then on_error e (decode e r1)
                  else if N.ltb n0 240 then
                    emit ((N.land n0 15 * 64 + payload b1) * 64
                          + payload b2)%N (decode e r2)
                  else
                    match r2 with
                    | [] => on_error e (Ok [])
                    | b3 :: r3 =>
                        if negb (cont b3) then on_error e (decode e r2)
                        else
                          emit (((N.land n0 7 * 64 + payload b1) * 64
                                 + payload b2) * 64 + payload b3)%N
                               (decode e r3)
                    end
              end
        end
  end.

End Utf8.

(** ** The file system and [pathlib.Path] *)

Module FS.

Inductive node : Type :=
| File (data : list byte)
| Dir (entries : list (str * node)).

(** A [Path]: whether it is absolute, and its components. *)
Record Path : Type := mkPath { absolute : bool; parts : list str }.

(** The tree, the current directory and the home directory (both as the
    components of an absolute path). *)
Record env : Type := mkEnv { root : node; cwd : list str; home : list str }.

Definition slash : char := 47%N.
Definition dot : char := 46%N.
Definition dotdot : str := [dot; dot].

Definition keep_part (c : str) : bool :=
  negb (PyStr.eqb c [] || PyStr.eqb c [dot]).

(** [Path(s)]: empty components and [.] are dropped, [..] is kept. *)
Definition parse (s : str) : Path :=
  mkPath (startswith s [slash]) (filter keep_part (split_char slash s)).

(** [p / s] *)
Definition joinpath (p : Path) (s : str) : Path :=
  let q := parse s in
  if absolute q then q else mkPath (absolute p) (parts p ++ parts q).

(** [str(p)] *)
Definition to_str (p : Path) : str :=
  match parts p with
  | [] => if absolute p then [slash] else [dot]
  | ps => (if absolute p then [slash] else []) ++ join [slash] ps
  end.

(** [p.name] *)
Definition name (p : Path) : str := last (parts p) [].

Fixpoint rsplit_dot (r acc : str) : option (str * str) :=
  match r with
  | [] => None
  | c :: r' => if N.eqb c dot then Some (acc, r') else rsplit_dot r' (c :: acc)
  end.

(** [p.suffix]: from the last dot of the name, when that dot is neither its
    first nor its last character. *)
Definition suffix (p : Path) : str :=
  match rsplit_dot (rev (name p)) [] with
  | Some ((_ :: _) as ext, _ :: _) => dot :: ext
  | _ => []
  end.

Fixpoint assoc (c : str) (es : list (str * node)) : option node :=
  match es with
  | [] => None
  | (k, n) :: es' => if PyStr.eqb c k then Some n else assoc c es'
  end.

(** Resolution of components from a directory, [up] being the chain of
    its ancestors, nearest first. *)
Fixpoint walk (up : list node) (cur : node) (p : list str)
  : option (list node * node) :=
  match p with
  | [] => Some (up, cur)
  | c :: p' =>
      match cur with
      | File _ => None
      | Dir es =>
          if PyStr.eqb c dotdot then
            match up with
            | [] => walk [] cur p'
            | parent :: up' => walk up' parent p'
            end
          else
            match assoc c es with
            | Some m => walk (cur :: up) m p'
            | None => None
            end
      end
  end.

Definition full (e : env) (p : Path) : list str :=
  if absolute p then parts p else cwd e ++ parts p.

Definition lookup (e : env) (p : Path) : option node :=
  option_map snd (walk [] (root e) (full e p)).

Definition exists_ (e : env) (p : Path) : bool :=
  match lookup e p with Some _ => true | None => false end.
Definition is_dir (e : env) (p : Path) : bool :=
  match lookup e p with Some (Dir _) => true | _ => false end.
Definition is_file (e : env) (p : Path) : bool :=
  match lookup e p with Some (File _) => true | _ => false end.

(** [p.expanduser()] *)
Definition expanduser (e : env) (p : Path) : Path :=
  match absolute p, parts p with
  | false, c :: ps => if PyStr.eqb c (lit "~") then mkPath true (home e ++ ps)
                      else p
  | _, _ => p
  end.

Fixpoint normalize (done_rev todo : list str) : list str :=
  match todo with
  | [] => rev done_rev
  | c :: todo' =>
      if PyStr.eqb c dotdot then normalize (tl done_rev) todo'
      else normalize (c :: done_rev) todo'
  end.

(** [p.resolve()] *)
Definition resolve (e : env) (p : Path) : Path :=
  mkPath true (normalize [] (full e p)).

(** The relative paths that [rglob("*")] finds below a node: the entries of
    the directory, then the same for each of its subdirectories in turn. *)
Fixpoint rglob_node (n : node) : list (list str) :=
  match n with
  | File _ => []
  | Dir es =>
      map (fun kn => [fst kn]) es
      ++ (fix below (es : list (str * node)) : list (list str) :=
            match es with
            | [] => []
            | (k, m) :: es' => map (cons k) (rglob_node m) ++ below es'
            end) es
  end.

(** [p.rglob("*")] *)
Definition rglob (e : env) (p : Path) : list Path :=
  match lookup e p with
  | Some n => map (fun r => mkPath (absolute p) (parts p ++ r)) (rglob_node n)
  | None => []
  end.

Fixpoint strip_prefix (base p : list str) : option (list str) :=
  match base, p with
  | [], _ => Some p
  | b :: base', c :: p' => if PyStr.eqb b c then strip_prefix base' p' else None
  | _ :: _, [] => None
  end.

(** [p.relative_to(base)] *)
Definition relative_to (p base : Path) : result Path :=
  if Bool.eqb (absolute p) (absolute base) then
    match strip_prefix (parts base) (parts p) with
    | Some r => Ok (mkPath false r)
    | None => Raise ValueError
    end
  else Raise ValueError.

(** Text mode reading translates [\r\n] and [\r] to [\n]. *)
Fixpoint universal_newlines (s : str) : str :=
  match s with
  | [] => []
  | c :: s' =>
      if N.eqb c 13 then
        match s' with
        | d :: s'' => if N.eqb d 10 then 10%N :: universal_newlines s''
                      else 10%N :: universal_newlines s'
        | [] => [10%N]
        end
      else c :: universal_newlines s'
  end.

Definition read_bytes (e : env) (p : Path) : result (list byte) :=
  match lookup e p with
  | Some (File data) => Ok data
  | Some (Dir _) => Raise IsADirectoryError
  | None => Raise FileNotFoundError
  end.

(** [p.read_text(encoding="utf-8", errors=...)] *)
Definition read_text (errs : Utf8.errors) (e : env) (p : Path) : result str :=
  data <- read_bytes e p ;;
  s <- Utf8.decode errs data ;;
  Ok (universal_newlines s).

End FS.

(** ** Regular expressions: the fragment of [re] the route patterns use *)

Module Regex.

Inductive cset : Type :=
| Lit (c : char)          (* a literal character *)
| AnyChar                 (* [.] : anything but a newline *)
| Space                   (* [\s] *)
| OneOf (cs : str)        (* [[...]] *)
| NoneOf (cs : str).      (* [[^...]] *)

Inductive regex : Type :=
| Eps
| Chr (cs : cset)
| Seq (a b : regex)
| Alt (a b : regex)
| Star (a : regex)                (* greedy [*] *)
| Group (i : nat) (a : regex)     (* the [i]-th capturing group *)
| WordB.                          (* [\b] *)

Definition Plus (a : regex) : regex := Seq a (Star a).

Fixpoint word (s : str) : regex :=
  match s with
  | [] => Eps
  | [c] => Chr (Lit c)
  | c :: s' => Seq (Chr (Lit c)) (word s')
  end.

Fixpoint alts (rs : list regex) : regex :=
  match rs with
  | [] => Eps
  | [r] => r
  | r :: rs' => Alt r (alts rs')
  end.

Fixpoint seqs (rs : list regex) : regex :=
  match rs with
  | [] => Eps
  | [r] => r
  | r :: rs' => Seq r (seqs rs')
  end.

(** [re.compile(source, flags)] *)
Record pattern : Type := compile { source : regex; ignorecase : bool }.

(** [pattern.groups] *)
Fixpoint n_groups (r : regex) : nat :=
  match r with
  | Seq a b | Alt a b => n_groups a + n_groups b
  | Star a => n_groups a
  | Group _ a => S (n_groups a)
  | _ => 0
  end.

(** Does [c] match the ASCII literal [d] under [IGNORECASE]? The same
    letter in either case, and what [re] adds to the ASCII letters: U+0130
    and U+0131 for [i], U+017F for [s], U+212A for [k]. *)
Definition ignorecase_eq (c d : char) : bool :=
  (N.eqb (lower_char c) (lower_char d)
   || (N.eqb (lower_char d) 105 && (N.eqb c 304 || N.eqb c 305))
   || (N.eqb (lower_char d) 115 && N.eqb c 383)
   || (N.eqb (lower_char d) 107 && N.eqb c 8490))%bool.

Definition cset_match (ic : bool) (cs : cset) (c : char) : bool :=
  match cs with
  | Lit d => if ic then ignorecase_eq c d else N.eqb c d
  | AnyChar => negb (N.eqb c 10)
  | Space => is_space c
  | OneOf ds => existsb (N.eqb c) ds
  | NoneOf ds => negb (existsb (N.eqb c) ds)
  end.

Definition is_word (c : char) : bool :=
  (in_range 48 57 c || in_range 65 90 c || in_range 97 122 c || N.eqb c 95)%bool.

Definition opt_word (c : option char) : bool :=
  match c with Some d => is_word d | None => false end.

(** The matcher's state: the character before the position, the input from
    the position on, the groups closed so far (latest first) and the index
    of the group closed last. *)
Record mstate : Type := mkState {
  before : option char;
  rest : str;
  caps : list (nat * str);
  last_closed : option nat
}.

(** Backtracking matcher: [k] is what remains to match after [r]; the
    first alternative that lets [k] succeed wins. An iteration of a star
    has to consume input, so [length (rest st)] iterations are enough. *)
Fixpoint run (ic : bool) (r : regex) (st : mstate)
    (k : mstate -> option mstate) : option mstate :=
  match r with
  | Eps => k st
  | Chr cs =>
      match rest st with
      | c :: s' =>
          if cset_match ic cs c
          then k (mkState (Some c) s' (caps st) (last_closed st))
          else None
      | [] => None
      end
  | Seq a b => run ic a st (fun st' => run ic b st' k)
  | Alt a b =>
      match run ic a st k with
      | Some m => Some m
      | None => run ic b st k
      end
  | Star a =>
      (fix loop (fuel : nat) (st : mstate) : option mstate :=
         match fuel with
         | O => k st
         | S fuel' =>
             match run ic a st
                     (fun st' =>
                        if Nat.ltb (List.length (rest st')) (List.length (rest st))
                        then loop fuel' st' else None) with
             | Some m => Some m
             | None => k st
             end
         end) (List.length (rest st)) st
  | Group i a =>
      run ic a st
        (fun st' =>
           let text :=
             firstn (List.length (rest st) - List.length (rest st')) (rest st) in
           k (mkState (before st') (rest st') ((i, text) :: caps st') (Some i)))
  | WordB =>
      if xorb (opt_word (before st)) (opt_word (hd_error (rest st)))
      then k st else None
  end.

(** A match object. *)
Record rmatch : Type := mkMatch {
  groups : list (nat * str);
  lastindex : option nat
}.

Definition match_at (p : pattern) (prev : option char) (s : str)
  : option rmatch :=
  match run (ignorecase p) (source p) (mkState prev s [] None) Some with
  | Some st => Some (mkMatch (caps st) (last_closed st))
  | None => None
  end.

Fixpoint search_from (p : pattern) (prev : option char) (s : str)
  : option rmatch :=
  match match_at p prev s with
  | Some m => Some m
  | None =>
      match s with
      | [] => None
      | c :: s' => search_from p (Some c) s'
      end
  end.

(** [pattern.search(s)]: the leftmost match. *)
Definition search (p : pattern) (s : str) : option rmatch :=
  search_from p None s.

(** [m.group(i)]; a group that took no part in the match reads as empty
    (every group of the route patterns is mandatory). *)
Fixpoint group_in (gs : list (nat * str)) (i : nat) : str :=
  match gs with
  | [] => []
  | (j, t) :: gs' => if Nat.eqb i j then t else group_in gs' i
  end.
Definition group (m : rmatch) (i : nat) : str := group_in (groups m) i.

End Regex.

(** ** [main_3.py]: [APIDocumentation] *)

(** [for x in xs: s = body(x, s)], any iteration possibly raising. *)
Fixpoint for_ {A S : Type} (xs : list A) (body : A -> S -> result S) (s : S)
  : result S :=
  match xs with
  | [] => Ok s
  | x :: xs' => s' <- body x s ;; for_ xs' body s'
  end.

Module ApiDoc.
Import FS Regex.

(** An element of [entries]: a dictionary with the four keys [method],
    [path], [file] and [line]. *)
Record RouteEntry : Type := mkEntry {
  method : str;
  path : str;
  file : str;
  line : str
}.

Definition quotes : str := [34%N; 39%N].

Definition http_methods : regex :=
  alts (map (fun s => word (lit s))
          ["get"; "post"; "put"; "patch"; "delete"; "options"; "head"]).

(** [\(\s*["']([^"']+)] with the group numbered [i] *)
Definition open_quote_route (i : nat) : list regex :=
  [word (lit "("); Star (Chr Space); Chr (OneOf quotes);
   Group i (Plus (Chr (NoneOf quotes)))].

Definition route_patterns : list pattern :=
  [ compile (seqs ([word (lit "@");
                    Group 1 (alts [word (lit "app"); word (lit "api");
                                   word (lit "router")]);
                    word (lit "."); Group 2 http_methods]
                   ++ open_quote_route 3)) true;
    compile (seqs ([word (lit "@"); Star (Chr AnyChar); word (lit "route")]
                   ++ open_quote_route 1)) true;
    compile (seqs ([WordB;
                    Group 1 (alts [word (lit "app"); word (lit "router")]);
                    word (lit "."); Group 2 http_methods]
                   ++ open_quote_route 3)) true;
    compile (seqs ([WordB; word (lit "path")] ++ open_quote_route 1)) true;
    compile (seqs ([WordB; word (lit "re_path")] ++ open_quote_route 1)) true ].

Definition allowed_exts : list str :=
  map lit [".py"; ".js"; ".ts"; ".tsx"; ".jsx"].

(** The entry built from a match of [pattern] on [line]. *)
Definition entry_of (pattern : pattern) (m : rmatch) (rel_file line : str)
  : RouteEntry :=
  let method := lit "GET" in
  let '(method, route) :=
    if Nat.eqb (n_groups (source pattern)) 3
    then (upper (group m 2), group m 3)
    else (method, group m (match lastindex m with Some i => i | None => 1 end))
  in
  mkEntry method route rel_file (prefix 200 (strip line)).

(** [for pattern in self.route_patterns: ...] on one line: a pattern that
    does not match passes to the next one; the first that matches appends
    an entry and leaves the loop. *)
Fixpoint scan_line (patterns : list pattern) (file_path repo_root : Path)
    (line : str) (entries : list RouteEntry) : result (list RouteEntry) :=
  match patterns with
  | [] => Ok entries
  | pattern :: patterns' =>
      match search pattern line with
      | None => scan_line patterns' file_path repo_root line entries
      | Some m =>
          rel <- relative_to file_path repo_root ;;
          Ok (entries ++ [entry_of pattern m (to_str rel) line])
      end
  end.

Definition scan_file (e : env) (repo_root file_path : Path)
    (entries : list RouteEntry) : result (list RouteEntry) :=
  if (negb (is_file e file_path)
      || negb (mem (lower (suffix file_path)) allowed_exts))%bool
  then Ok entries
  else
    text <- read_text Utf8.Ignore e file_path ;;
    for_ (splitlines text) (scan_line route_patterns file_path repo_root)
      entries.

Definition scan_api_endpoints (e : env) (repo_root : Path)
  : result (list RouteEntry) :=
  if negb (exists_ e repo_root) then Ok []
  else for_ (rglob e repo_root) (scan_file e repo_root) [].

End ApiDoc.

(** ** [agent.py]: [CodebaseScanner] *)

Module Scanner.
Import FS.

(** What [fuzzy_match] returns: a bare score, or a tuple whose second
    component is the score. *)
Inductive fuzzy_result : Type :=
| Bare (score : Z)
| Tuple (matched : bool) (score : Z) (positions : list nat).

(** [result[1] if isinstance(result, tuple) and len(result) >= 2 else result] *)
Definition score_of (r : fuzzy_result) : Z :=
  match r with
  | Bare s => s
  | Tuple _ s _ => s
  end.

Definition CODE_EXTENSIONS : list str :=
  map lit [".py"; ".js"; ".ts"; ".tsx"; ".jsx"; ".rs"; ".go"; ".java";
           ".cpp"; ".c"; ".h"; ".hpp"].

Record CodebaseScanner : Type := mkScanner { codebase_root : Path }.

(** An optional string argument counts when it is given and not empty. *)
Definition given (s : option str) : option str :=
  match s with
  | Some t => if truthy t then Some t else None
  | None => None
  end.

Definition existing_dir (e : env) (p : Path) : option Path :=
  if (exists_ e p && is_dir e p)%bool then Some p else None.

Definition resolve_target_dir (e : env) (self : CodebaseScanner)
    (repo_name folder_path : option str) : option Path :=
  match given folder_path with
  | Some fp => existing_dir e (resolve e (expanduser e (parse fp)))
  | None =>
      match given repo_name with
      | Some rn => existing_dir e (joinpath (codebase_root self) rn)
      | None => existing_dir e (codebase_root self)
      end
  end.

(** [folder_path if folder_path else repo_name or default] *)
Definition identifier (repo_name folder_path : option str) (default : str)
  : str :=
  match given folder_path with
  | Some fp => fp
  | None => match given repo_name with Some rn => rn | None => default end
  end.

Definition not_found_msg (ident : str) : str :=
  lit "Folder/repository '" ++ ident ++ lit "' not found.".

Definition get_code_files (e : env) (directory : Path) : list Path :=
  if (negb (exists_ e directory) || negb (is_dir e directory))%bool then []
  else filter (fun f => is_file e f && mem (suffix f) CODE_EXTENSIONS)%bool
              (rglob e directory).

(** *** Structural extraction *)

Definition class_entry (class_name : str) (i : nat) : str :=
  lit "  - " ++ class_name ++ lit " (line " ++ of_nat i ++ lit ")".
Definition function_entry (func_name : str) (i : nat) : str :=
  lit "  - " ++ func_name ++ lit "() (line " ++ of_nat i ++ lit ")".

Definition class_name_of (stripped : str) : str :=
  strip_chars (lit ":")
    (replace (lit "class ") [] (hd [] (split_char 40%N stripped))).
Definition func_name_of (stripped : str) : str :=
  strip (replace (lit "def ") [] (hd [] (split_char 40%N stripped))).

(** The three lists being built: classes, functions, imports. *)
Definition elements : Type := (list str * list str * list str)%type.

(** The body of the loop at line number [i]. *)
Definition extract_step (i : nat) (line : str) (acc : elements) : elements :=
  let '(classes, functions, imports) := acc in
  let stripped := strip line in
  if startswith stripped (lit "class ") then
    (classes ++ [class_entry (class_name_of stripped) i], functions, imports)
  else if startswith stripped (lit "def ") then
    let func_name := func_name_of stripped in
    if negb (startswith func_name (lit "_"))
    then (classes, functions ++ [function_entry func_name i], imports)
    else acc
  else if (startswith stripped (lit "import ")
           || startswith stripped (lit "from "))%bool then
    (classes, functions, imports ++ [stripped])
  else acc.

(** [for i, line in enumerate(lines, i): ...] *)
Fixpoint extract_loop (i : nat) (lines : list str) (acc : elements)
  : elements :=
  match lines with
  | [] => acc
  | line :: lines' => extract_loop (S i) lines' (extract_step i line acc)
  end.

Definition extract_code_elements (lines : list str) : elements :=
  extract_loop 1 (firstn 100 lines) ([], [], []).

(** *** Slices and sorting *)

Definition slice_index (len i : Z) : Z :=
  if (i <? 0)%Z then Z.max 0 (i + len) else Z.min i len.

(** [l[a:b]] *)
Definition slice {A : Type} (l : list A) (a b : Z) : list A :=
  let len := Z.of_nat (List.length l) in
  let a' := slice_index len a in
  let b' := slice_index len b in
  firstn (Z.to_nat (b' - a')) (skipn (Z.to_nat a') l).

(** [l[:b]] *)
Definition slice_to {A : Type} (l : list A) (b : Z) : list A := slice l 0 b.

Fixpoint insert_desc {A : Type} (key : A -> Z) (x : A) (l : list A) : list A :=
  match l with
  | [] => [x]
  | y :: l' => if (key x <? key y)%Z then y :: insert_desc key x l'
               else x :: l
  end.

(** [sorted(l, reverse=True, key=key)]: decreasing keys, elements of equal
    key in the order they have in [l]. *)
Definition sorted_reverse {A : Type} (key : A -> Z) (l : list A) : list A :=
  fold_right (insert_desc key) [] l.

(** *** Formatting *)

Definition format_file_explanation (file_path : str) (full_path : Path)
    (lines classes functions imports : list str) : str :=
  let result :=
    [file_path; repeat_str (lit "=") 60;
     lit "Lines: " ++ of_nat (List.length lines) ++ lit " | Extension: "
       ++ suffix full_path;
     []] in
  let result :=
    match imports with
    | [] => result
    | _ => result ++ [lit "Imports:"]
           ++ map (fun imp => lit "  - " ++ imp) (firstn 8 imports) ++ [[]]
    end in
  let result :=
    match classes with
    | [] => result
    | _ => result ++ [lit "Classes:"] ++ firstn 5 classes ++ [[]]
    end in
  let result :=
    match functions with
    | [] => result
    | _ => result ++ [lit "Functions:"] ++ firstn 8 functions ++ [[]]
    end in
  let preview := join [10%N] (firstn 25 lines) in
  let result :=
    result ++ [lit "Preview (first 25 lines):"; repeat_str (lit "-") 60;
               preview] in
  let result :=
    if Nat.ltb 25 (List.length lines)
    then result ++ [[10%N] ++ lit "... ("
                    ++ of_nat (List.length lines - 25) ++ lit " more lines)"]
    else result in
  join [10%N] result.

Fixpoint enumerate {A : Type} (start : Z) (l : list A) : list (Z * A) :=
  match l with
  | [] => []
  | x :: l' => (start, x) :: enumerate (start + 1) l'
  end.

Definition format_recommendations (feature_description : str)
    (recommended : list (Z * str)) : str :=
  lit "Recommended files for: '" ++ feature_description ++ lit "'"
  ++ [10%N; 10%N]
  ++ List.concat (map (fun '(i, (score, path)) =>
                    lit "  " ++ of_Z i ++ lit ". " ++ path
                    ++ lit " (relevance: " ++ of_Z_fixed 1 score ++ lit ")"
                    ++ [10%N])
               (enumerate 1 recommended))
  ++ [10%N] ++ lit "Use explain_file() to learn what each file does.".

Definition format_search_results (query : str)
    (scored_files : list (Z * str * str)) (max_results : Z) : str :=
  let shown := slice_to scored_files max_results in
  lit "Fuzzy search results for '" ++ query ++ lit "' ("
  ++ of_nat (List.length shown) ++ lit " matches):" ++ [10%N; 10%N]
  ++ List.concat (map (fun '(i, (score, path, highlighted)) =>
                    lit "  " ++ of_Z i ++ lit ". " ++ highlighted
                    ++ lit " (score: " ++ of_Z_fixed 2 score ++ lit ")"
                    ++ [10%N])
               (enumerate 1 shown))
  ++ (if (max_results <? Z.of_nat (List.length scored_files))%Z
      then [10%N] ++ lit "... and "
           ++ of_Z (Z.of_nat (List.length scored_files) - max_results)
           ++ lit " more matches"
      else []).

Section Fuzzy.

(** [connectonion.tui.fuzzy_match] and [highlight_match]. *)
Variable fuzzy_match : str -> str -> fuzzy_result.
Variable highlight_match : str -> str -> str.

(** *** Path search *)

Definition fuzzy_step (query path : str) (scored_files : list (Z * str * str))
  : list (Z * str * str) :=
  let score := score_of (fuzzy_match (lower query) (lower path)) in
  if (0 <? score)%Z
  then scored_files ++ [(score, path, highlight_match path query)]
  else scored_files.

Definition score_files_fuzzy (query : str) (file_paths : list str)
  : list (Z * str * str) :=
  let scored_files :=
    fold_left (fun acc path => fuzzy_step query path acc) file_paths [] in
  sorted_reverse (fun x => fst (fst x)) scored_files.

Definition fuzzy_search_files (e : env) (self : CodebaseScanner) (query : str)
    (repo_name folder_path : option str) (max_results : Z) : result str :=
  match resolve_target_dir e self repo_name folder_path with
  | None =>
      Ok (not_found_msg (identifier repo_name folder_path (lit "directory")))
  | Some target_dir =>
      match get_code_files e target_dir with
      | [] => Ok (lit "No code files found in '"
                  ++ identifier repo_name folder_path (lit "directory")
                  ++ lit "'.")
      | code_files =>
          file_paths <-
            for_ code_files
              (fun f acc => rel <- relative_to f target_dir ;;
                            Ok (acc ++ [to_str rel])) [] ;;
          match score_files_fuzzy query file_paths with
          | [] => Ok (lit "No files found matching '" ++ query ++ lit "'.")
          | scored_files =>
              Ok (format_search_results query scored_files max_results)
          end
      end
  end.

(** *** Feature recommendation *)

(** The body of the loop over the keywords, for one file. *)
Definition keyword_step (e : env) (file_path : Path) (rel_path : str)
    (keyword : str) (total_score : Z) : result Z :=
  let path_score := score_of (fuzzy_match keyword (lower rel_path)) in
  let total_score := (total_score + path_score * 3)%Z in
  text <- read_text Utf8.Ignore e file_path ;;
  let content := lower (prefix 1000 text) in
  let content_score := score_of (fuzzy_match keyword content) in
  Ok (total_score + content_score * 2)%Z.

Definition feature_step (e : env) (target_dir : Path) (keywords : list str)
    (file_path : Path) (scored_files : list (Z * str))
  : result (list (Z * str)) :=
  rel <- relative_to file_path target_dir ;;
  let rel_path := to_str rel in
  total_score <- for_ keywords (keyword_step e file_path rel_path) 0%Z ;;
  if (0 <? total_score)%Z then Ok (scored_files ++ [(total_score, rel_path)])
  else Ok scored_files.

Definition score_files_for_feature (e : env) (code_files : list Path)
    (target_dir : Path) (keywords : list str) : result (list (Z * str)) :=
  for_ code_files (feature_step e target_dir keywords) [].

(** The list [recommended] of [recommend_files], for a resolved directory
    with code files. *)
Definition recommended (e : env) (code_files : list Path) (target_dir : Path)
    (feature_description : str) : result (list (Z * str)) :=
  let keywords := split (lower feature_description) in
  scored_files <- score_files_for_feature e code_files target_dir keywords ;;
  Ok (firstn 5 (sorted_reverse fst scored_files)).

Definition recommend_files (e : env) (self : CodebaseScanner)
    (feature_description : str) (repo_name folder_path : option str)
  : result str :=
  match resolve_target_dir e self repo_name folder_path with
  | None =>
      Ok (not_found_msg (identifier repo_name folder_path (lit "directory")))
  | Some target_dir =>
      match get_code_files e target_dir with
      | [] => Ok (lit "No code files found in '"
                  ++ identifier repo_name folder_path (lit "directory")
                  ++ lit "'.")
      | code_files =>
          recommended <-
            recommended e code_files target_dir feature_description ;;
          Ok (format_recommendations feature_description recommended)
      end
  end.

End Fuzzy.

(** *** File level operations *)

Definition file_not_found_msg (file_path ident : str) : str :=
  lit "File " ++ file_path ++ lit " not found in '" ++ ident ++ lit "'.".

Definition explain_file (e : env) (self : CodebaseScanner) (file_path : str)
    (repo_name folder_path : option str) : result str :=
  match resolve_target_dir e self repo_name folder_path with
  | None =>
      Ok (not_found_msg (identifier repo_name folder_path (lit "directory")))
  | Some target_dir =>
      let full_path := joinpath target_dir file_path in
      if negb (exists_ e full_path) then
        Ok (file_not_found_msg file_path
              (identifier repo_name folder_path (to_str target_dir)))
      else if negb (is_file e full_path) then
        Ok (file_path ++ lit " is not a file.")
      else
        content <- read_text Utf8.Ignore e full_path ;;
        let lines := splitlines content in
        let '(classes, functions, imports) := extract_code_elements lines in
        Ok (format_file_explanation file_path full_path lines classes
              functions imports)
  end.

(** The window of [get_file_content]: [start_idx], [end_idx] and
    [selected_lines]. *)
Definition window (lines : list str) (start_line num_lines : Z)
  : Z * Z * list str :=
  let start_idx := Z.max 0 (start_line - 1) in
  let end_idx := Z.min (Z.of_nat (List.length lines)) (start_idx + num_lines) in
  (start_idx, end_idx, slice lines start_idx end_idx).

Definition format_file_content (file_path : str) (lines : list str)
    (start_line num_lines : Z) : str :=
  let '(start_idx, end_idx, selected_lines) :=
    window lines start_line num_lines in
  file_path ++ lit " (lines " ++ of_Z start_line ++ lit "-"
  ++ of_Z (start_idx + Z.of_nat (List.length selected_lines)) ++ lit "):"
  ++ [10%N] ++ repeat_str (lit "=") 60 ++ [10%N]
  ++ List.concat (map (fun '(i, line) =>
                    of_Z_width 4 i ++ lit " | " ++ line ++ [10%N])
               (enumerate start_line selected_lines))
  ++ (if (end_idx <? Z.of_nat (List.length lines))%Z
      then [10%N] ++ lit "... ("
           ++ of_Z (Z.of_nat (List.length lines) - end_idx)
           ++ lit " more lines)"
      else []).

Definition get_file_content (e : env) (self : CodebaseScanner)
    (file_path : str) (repo_name folder_path : option str)
    (start_line num_lines : Z) : result str :=
  match resolve_target_dir e self repo_name folder_path with
  | None =>
      Ok (not_found_msg (identifier repo_name folder_path (lit "directory")))
  | Some target_dir =>
      let full_path := joinpath target_dir file_path in
      if negb (exists_ e full_path) then
        Ok (file_not_found_msg file_path
              (identifier repo_name folder_path (lit "directory")))
      else
        content <- read_text Utf8.Ignore e full_path ;;
        let lines := splitlines content in
        Ok (format_file_content file_path lines start_line num_lines)
  end.

End Scanner.

(** ** Reference definitions for the statements *)

Module Ref.
Import FS Regex ApiDoc Scanner.

(** The text the scans read from a regular file. *)
Definition text_of (e : env) (f : Path) : str :=
  match read_text Utf8.Ignore e f with
  | Ok t => t
  | Raise _ => []
  end.

(** The path of a file found below [target_dir], relative to it. *)
Definition rel_path_of (target_dir f : Path) : str :=
  match relative_to f target_dir with
  | Ok r => to_str r
  | Raise _ => []
  end.

Definition PATH_WEIGHT : Z := 3.
Definition CONTENT_WEIGHT : Z := 2.

Definition sumZ (l : list Z) : Z := fold_right Z.add 0%Z l.

Section Fuzzy.
Variable fuzzy_match : str -> str -> fuzzy_result.

(** The two signals of one keyword, weighted. *)
Definition keyword_score (path content keyword : str) : Z :=
  (score_of (fuzzy_match keyword path) * PATH_WEIGHT
   + score_of (fuzzy_match keyword content) * CONTENT_WEIGHT)%Z.

(** The total score of a file: the sum over the keywords. *)
Definition total_score (keywords : list str) (path content : str) : Z :=
  sumZ (map (keyword_score path content) keywords).

(** A candidate file with its total score. *)
Definition scored (e : env) (target_dir : Path) (keywords : list str)
    (f : Path) : Z * str :=
  let rel_path := rel_path_of target_dir f in
  (total_score keywords (lower rel_path) (lower (prefix 1000 (text_of e f))),
   rel_path).

(** The candidates of non-zero (positive) score, in discovery order. *)
Definition kept (e : env) (target_dir : Path) (keywords : list str)
  : list (Z * str) :=
  filter (fun x => (0 <? fst x)%Z)
         (map (scored e target_dir keywords) (get_code_files e target_dir)).

(** The score of a path in a path search. *)
Definition path_score (query path : str) : Z :=
  score_of (fuzzy_match (lower query) (lower path)).

(** What a path adds to the list of a path search, before sorting. *)
Definition fuzzy_hit (highlight_match : str -> str -> str)
    (query path : str) : list (Z * str * str) :=
  if (0 <? path_score query path)%Z
  then [(path_score query path, path, highlight_match path query)]
  else [].

End Fuzzy.

(** Decreasing scores. *)
Definition desc {A : Type} (key : A -> Z) (a b : A) : Prop :=
  (key b <= key a)%Z.

(** Has [x] the key [s]? *)
Definition has_key {A : Type} (key : A -> Z) (s : Z) (x : A) : bool :=
  (key x =? s)%Z.

(** The first pattern of the list that matches the line, with its match. *)
Fixpoint first_match (patterns : list pattern) (line : str)
  : option (pattern * rmatch) :=
  match patterns with
  | [] => None
  | p :: patterns' =>
      match search p line with
      | Some m => Some (p, m)
      | None => first_match patterns' line
      end
  end.

(** The entries of one line, of one file, of a repository. *)
Definition line_entries (rel_file line : str) : list RouteEntry :=
  match first_match route_patterns line with
  | Some (p, m) => [entry_of p m rel_file line]
  | None => []
  end.

Definition scanned (e : env) (f : Path) : bool :=
  (is_file e f && mem (lower (suffix f)) allowed_exts)%bool.

Definition file_entries (e : env) (repo_root f : Path) : list RouteEntry :=
  if scanned e f
  then flat_map (line_entries (rel_path_of repo_root f))
                (splitlines (text_of e f))
  else [].

Definition all_entries (e : env) (repo_root : Path) : list RouteEntry :=
  flat_map (file_entries e repo_root) (rglob e repo_root).

(** What one line adds to the classes, the functions and the imports. *)
Definition is_class_line (line : str) : bool :=
  startswith (strip line) (lit "class ").
Definition is_def_line (line : str) : bool :=
  (negb (is_class_line line) && startswith (strip line) (lit "def "))%bool.
Definition is_public_def_line (line : str) : bool :=
  (is_def_line line
   && negb (startswith (func_name_of (strip line)) (lit "_")))%bool.
Definition is_import_line (line : str) : bool :=
  (negb (is_class_line line) && negb (startswith (strip line) (lit "def "))
   && (startswith (strip line) (lit "import ")
       || startswith (strip line) (lit "from ")))%bool.

Definition line_classes (i : nat) (line : str) : list str :=
  if is_class_line line then [class_entry (class_name_of (strip line)) i]
  else [].
Definition line_functions (i : nat) (line : str) : list str :=
  if is_public_def_line line
  then [function_entry (func_name_of (strip line)) i] else [].
Definition line_imports (line : str) : list str :=
  if is_import_line line then [strip line] else [].

(** [enumerate(lines, i)] with natural numbers. *)
Fixpoint numbered {A : Type} (i : nat) (l : list A) : list (nat * A) :=
  match l with
  | [] => []
  | x :: l' => (i, x) :: numbered (S i) l'
  end.

End Ref.

(** ** A small repository, for examples *)

Module Demo.
Import FS Regex ApiDoc Scanner.

Definition bytes (s : string) : list byte := list_byte_of_string s.

Definition demo_root : node :=
  Dir [(lit "repos",
        Dir [(lit "app",
              Dir [(lit "auth",
                    Dir [(lit "login.py", File (bytes "def login(): pass"))]);
                   (lit "README.md", File (bytes "login docs"));
                   (lit "main.py",
                    File (bytes "@app.get('/users')" ++ [x0d; x0a]
                          ++ bytes "x = 1" ++ [x0a]
                          ++ bytes "  router.post( '/items', f)"));
                   (lit "bad.js",
                    File ([xff; xfe] ++ bytes "app.delete('/gone')"
                          ++ [xc3]))])])].

Definition demo_env : env := mkEnv demo_root [] [lit "home"].
Definition demo_scanner : CodebaseScanner :=
  mkScanner (mkPath false [lit "repos"]).
Definition demo_app : Path := mkPath false [lit "repos"; lit "app"].

Definition bad_js : Path := mkPath false [lit "repos"; lit "app"; lit "bad.js"].

(** A tree with the single file [a.py]. *)
Definition one_file (data : list byte) : env :=
  mkEnv (Dir [(lit "a.py", File data)]) [] [].
Definition top : Path := mkPath true [].
Definition a_py : Path := mkPath true [lit "a.py"].
Definition route_line : string := "@app.get('/a')".

(** Is [q] a subsequence of [t]? *)
Fixpoint subseq (q t : str) : bool :=
  match q, t with
  | [], _ => true
  | _ :: _, [] => false
  | c :: q', d :: t' => if N.eqb c d then subseq q' t' else subseq q t'
  end.

(** A stand-in for [fuzzy_match]: a subsequence scores its length plus one,
    anything else scores nothing. *)
Definition demo_fuzzy (q t : str) : fuzzy_result :=
  if subseq q t then Tuple true (Z.of_nat (List.length q) + 1) []
  else Tuple false 0 [].

Definition demo_highlight (path query : str) : str := path.

(** The line of scenario C of the specification. *)
Definition users_line : str :=
  lit "@app.get(" ++ [34%N] ++ lit "/users/{id}" ++ [34%N] ++ lit ")".

(** The file of scenario B of the specification. *)
Definition user_auth_lines : list str :=
  map lit ["class UserAuth:"; "    def login(self):"; "        pass";
           "    def _hash(self, pw):"; "        pass"].

End Demo.

(** ** [agent.py]: the other operations of [CodebaseScanner] *)

Module ScannerOps.
Import FS Scanner.

(** [needle in hay] *)
Fixpoint contains (hay needle : str) : bool :=
  (startswith hay needle
   || match hay with
      | [] => false
      | _ :: hay' => contains hay' needle
      end)%bool.

(** [list(p.iterdir())] *)
Definition iterdir (e : env) (p : Path) : result (list Path) :=
  match lookup e p with
  | Some (Dir es) =>
      Ok (map (fun kn => mkPath (absolute p) (parts p ++ [fst kn])) es)
  | Some (File _) => Raise NotADirectoryError
  | None => Raise FileNotFoundError
  end.

(** [set_codebase_path]: the scanner afterwards and the message. *)
Definition set_codebase_path (e : env) (self : CodebaseScanner)
    (directory_path : str) : CodebaseScanner * str :=
  let path := resolve e (expanduser e (parse directory_path)) in
  if negb (exists_ e path) then
    (self, lit "Directory " ++ directory_path ++ lit " does not exist.")
  else if negb (is_dir e path) then
    (self, directory_path ++ lit " is not a directory.")
  else
    let self := mkScanner path in
    (self, lit "Codebase path set to " ++ to_str (codebase_root self)).

(** The list [repos] of [list_repositories]. *)
Definition visible_dirs (e : env) (entries : list Path) : list str :=
  map name
    (filter (fun d => is_dir e d && negb (startswith (name d) (lit ".")))%bool
            entries).

Definition list_repositories (e : env) (self : CodebaseScanner) : result str :=
  if negb (exists_ e (codebase_root self)) then
    Ok (lit "Directory " ++ to_str (codebase_root self)
        ++ lit " does not exist.")
  else
    entries <- iterdir e (codebase_root self) ;;
    match visible_dirs e entries with
    | [] => Ok (lit "No repositories found in " ++ to_str (codebase_root self)
                ++ lit ". Clone a repo first!")
    | repos =>
        Ok (lit "Available repositories (" ++ of_nat (List.length repos)
            ++ lit "):" ++ [10%N]
            ++ join [10%N] (map (fun repo => lit "  - " ++ repo) repos))
    end.

(** A location found: relative path, line number, stripped line. *)
Definition location : Type := (str * nat * str)%type.

(** [score and score > 0.7] for an integer score. *)
Definition good_score (score : Z) : bool :=
  (negb (score =? 0)%Z && (1 <=? score)%Z)%bool.

Definition format_locations (kind name : str) (matches : list location)
  : str :=
  lit "Found " ++ kind ++ lit " matching '" ++ name ++ lit "' ("
  ++ of_nat (List.length matches) ++ lit " locations):" ++ [10%N; 10%N]
  ++ List.concat
       (map (fun m : location =>
               let '(path, line_num, line_content) := m in
               lit "  " ++ path ++ lit ":" ++ of_nat line_num ++ [10%N]
               ++ lit "     " ++ line_content ++ [10%N; 10%N])
            (firstn 10 matches)).

Section Fuzzy.
Variable fuzzy_match : str -> str -> fuzzy_result.

(** The body of the loop over the lines, shared by the two searches:
    [candidate] is the test on the raw line. *)
Definition find_step (candidate : str -> bool) (target_dir file_path : Path)
    (name : str) (il : nat * str) (matches : list location)
  : result (list location) :=
  let '(i, line) := il in
  if candidate line then
    let line_lower := lower (strip line) in
    let score := score_of (fuzzy_match (lower name) line_lower) in
    if good_score score then
      rel_path <- relative_to file_path target_dir ;;
      Ok (matches ++ [(to_str rel_path, i, strip line)])
    else Ok matches
  else Ok matches.

Definition find_in_file (candidate : str -> bool) (e : env)
    (target_dir : Path) (name : str) (file_path : Path)
    (matches : list location) : result (list location) :=
  content <- read_text Utf8.Ignore e file_path ;;
  for_ (Ref.numbered 1 (splitlines content))
       (find_step candidate target_dir file_path name) matches.

Definition find_matches (candidate : str -> bool) (e : env)
    (target_dir : Path) (name : str) : result (list location) :=
  for_ (get_code_files e target_dir)
       (find_in_file candidate e target_dir name) [].

Definition is_function_line (line : str) : bool :=
  (contains line (lit "def ") || contains line (lit "function "))%bool.
Definition is_class_def_line (line : str) : bool :=
  contains line (lit "class ").

Definition find_function_definition (e : env) (self : CodebaseScanner)
    (function_name : str) (repo_name folder_path : option str) : result str :=
  match resolve_target_dir e self repo_name folder_path with
  | None =>
      Ok (not_found_msg (identifier repo_name folder_path (lit "directory")))
  | Some target_dir =>
      matches <- find_matches is_function_line e target_dir function_name ;;
      match matches with
      | [] => Ok (lit "Function matching '" ++ function_name
                  ++ lit "' not found in '"
                  ++ identifier repo_name folder_path (lit "directory")
                  ++ lit "'.")
      | _ => Ok (format_locations (lit "functions") function_name matches)
      end
  end.

Definition find_class_definition (e : env) (self : CodebaseScanner)
    (class_name : str) (repo_name folder_path : option str) : result str :=
  match resolve_target_dir e self repo_name folder_path with
  | None =>
      Ok (not_found_msg (identifier repo_name folder_path (lit "directory")))
  | Some target_dir =>
      matches <- find_matches is_class_def_line e target_dir class_name ;;
      match matches with
      | [] => Ok (lit "Class matching '" ++ class_name
                  ++ lit "' not found in '"
                  ++ identifier repo_name folder_path (lit "directory")
                  ++ lit "'.")
      | _ => Ok (format_locations (lit "classes") class_name matches)
      end
  end.

End Fuzzy.

End ScannerOps.

(** ** [agent.py], [main_3.py]: the name a repository is cloned under *)

Module Github.
Import FS.

(** [github_url.rstrip("/").split("/")[-1] or "repo"] *)
Definition repo_name_of (github_url : str) : str :=
  let last_part :=
    last (split_char slash (rstrip_by (N.eqb slash) github_url)) [] in
  if truthy last_part then last_part else lit "repo".

End Github.

(** ** What a match of a regular expression is *)

Module RegexSem.
Import Regex.

(** The words of a regular expression ([\b] put aside). *)
Inductive lang (ic : bool) : regex -> str -> Prop :=
| lang_eps : lang ic Eps []
| lang_chr cs c : cset_match ic cs c = true -> lang ic (Chr cs) [c]
| lang_seq a b u v : lang ic a u -> lang ic b v -> lang ic (Seq a b) (u ++ v)
| lang_alt_l a b w : lang ic a w -> lang ic (Alt a b) w
| lang_alt_r a b w : lang ic b w -> lang ic (Alt a b) w
| lang_star_nil a : lang ic (Star a) []
| lang_star_cons a u v :
    lang ic a u -> lang ic (Star a) v -> lang ic (Star a) (u ++ v)
| lang_group i a w : lang ic a w -> lang ic (Group i a) w
| lang_wordb : lang ic WordB [].

(** [reach ic r st st']: from [st] the expression can consume input and
    close groups so as to arrive in [st']. *)
Inductive reach (ic : bool) : regex -> mstate -> mstate -> Prop :=
| reach_eps st : reach ic Eps st st
| reach_chr cs st c s' :
    rest st = c :: s' -> cset_match ic cs c = true ->
    reach ic (Chr cs) st (mkState (Some c) s' (caps st) (last_closed st))
| reach_seq a b st1 st2 st3 :
    reach ic a st1 st2 -> reach ic b st2 st3 -> reach ic (Seq a b) st1 st3
| reach_alt_l a b st st' : reach ic a st st' -> reach ic (Alt a b) st st'
| reach_alt_r a b st st' : reach ic b st st' -> reach ic (Alt a b) st st'
| reach_star_nil a st : reach ic (Star a) st st
| reach_star_cons a st1 st2 st3 :
    reach ic a st1 st2 -> reach ic (Star a) st2 st3 ->
    reach ic (Star a) st1 st3
| reach_group i a st st' :
    reach ic a st st' ->
    reach ic (Group i a) st
      (mkState (before st') (rest st')
         ((i, firstn (List.length (rest st) - List.length (rest st')) (rest st))
          :: caps st')
         (Some i))
| reach_wordb st :
    xorb (opt_word (before st)) (opt_word (hd_error (rest st))) = true ->
    reach ic WordB st st.

(** Going through a list of expressions one after the other. *)
Fixpoint chain (ic : bool) (rs : list regex) (st st' : mstate) : Prop :=
  match rs with
  | [] => st = st'
  | r :: rs' => exists mid, reach ic r st mid /\ chain ic rs' mid st'
  end.

(** Not one of the two quote characters. *)
Definition no_quote (c : char) : Prop :=
  existsb (N.eqb c) ApiDoc.quotes = false.

(** A text of ASCII characters. *)
Definition ascii_text (s : str) : Prop := Forall (fun c => (c < 128)%N) s.

(** The HTTP methods, as the entries spell them. *)
Definition HTTP_METHODS : list str :=
  map lit ["GET"; "POST"; "PUT"; "PATCH"; "DELETE"; "OPTIONS"; "HEAD"].

End RegexSem.

(** ** Reference definitions for the searches *)

Module RefOps.
Import FS Scanner ScannerOps Ref.

(** What one numbered line of file [f] adds to the locations found. *)
Definition find_hit (fuzzy_match : str -> str -> fuzzy_result)
    (candidate : str -> bool) (target_dir : Path) (name : str) (f : Path)
    (il : nat * str) : list location :=
  if (candidate (snd il)
      && good_score (score_of (fuzzy_match (lower name)
                                 (lower (strip (snd il))))))%bool
  then [(rel_path_of target_dir f, fst il, strip (snd il))]
  else [].

(** A location that stands for a line of a code file which passed the
    test and the matcher. *)
Definition genuine (fuzzy_match : str -> str -> fuzzy_result)
    (candidate : str -> bool) (e : env) (target_dir : Path) (name : str)
    (m : location) : Prop :=
  exists f l,
    In f (get_code_files e target_dir)
    /\ fst (fst m) = rel_path_of target_dir f
    /\ 1 <= snd (fst m)
    /\ nth_error (splitlines (text_of e f)) (snd (fst m) - 1) = Some l
    /\ candidate l = true
    /\ snd m = strip l
    /\ (1 <= score_of (fuzzy_match (lower name) (lower (strip l))))%Z.

End RefOps.

(** * Properties *)

Import FS Regex ApiDoc Scanner Ref.

(** ** Lists, sorting *)

Lemma str_eqb_refl (s : str) : PyStr.eqb s s = true.
Proof.
  induction s as [|c s IH]; simpl; [reflexivity|].
  now rewrite N.eqb_refl, IH.
Qed.

Lemma str_eqb_eq (s t : str) : PyStr.eqb s t = true <-> s = t.
Proof.
  split; [|intros ->; apply str_eqb_refl].
  revert t; induction s as [|c s IH]; intros [|d t]; simpl; try discriminate;
    [reflexivity|].
  intros H. apply andb_true_iff in H as [Hc Hs].
  apply N.eqb_eq in Hc. apply IH in Hs. now subst.
Qed.

Lemma mem_In (s : str) (l : list str) : mem s l = true <-> In s l.
Proof.
  unfold mem. rewrite existsb_exists. split.
  - intros (t & Hin & Heq). apply str_eqb_eq in Heq. now subst.
  - intros Hin. exists s. split; [assumption|apply str_eqb_refl].
Qed.

Section Sorting.
Context {A : Type} (key : A -> Z).

Lemma insert_desc_perm (x : A) (l : list A) :
  Permutation (insert_desc key x l) (x :: l).
Proof.
  induction l as [|y l IH]; simpl; [reflexivity|].
  destruct (key x <? key y)%Z; [|reflexivity].
  rewrite IH. apply perm_swap.
Qed.

Lemma sorted_reverse_perm (l : list A) : Permutation (sorted_reverse key l) l.
Proof.
  induction l as [|x l IH]; simpl; [reflexivity|].
  unfold sorted_reverse in *; simpl.
  rewrite insert_desc_perm. now constructor.
Qed.

Lemma insert_desc_sorted (x : A) (l : list A) :
  StronglySorted (desc key) l -> StronglySorted (desc key) (insert_desc key x l).
Proof.
  induction 1 as [|y l Hs IH Hall]; simpl.
  - repeat constructor.
  - destruct (key x <? key y)%Z eqn:Hlt.
    + constructor; [assumption|].
      apply Forall_forall. intros z Hz.
      apply (Permutation_in _ (insert_desc_perm x l)) in Hz.
      destruct Hz as [<-|Hz].
      * apply Z.ltb_lt in Hlt. unfold desc. lia.
      * rewrite Forall_forall in Hall. now apply Hall.
    + apply Z.ltb_ge in Hlt.
      constructor; [now constructor|].
      constructor; [assumption|].
      eapply Forall_impl; [|exact Hall].
      unfold desc. intros; lia.
Qed.

Lemma sorted_reverse_sorted (l : list A) :
  StronglySorted (desc key) (sorted_reverse key l).
Proof.
  induction l as [|x l IH]; [constructor|].
  apply insert_desc_sorted, IH.
Qed.

Lemma insert_desc_stable (s : Z) (x : A) (l : list A) :
  filter (has_key key s) (insert_desc key x l) = filter (has_key key s) (x :: l).
Proof.
  induction l as [|y l IH]; [reflexivity|].
  simpl insert_desc. destruct (key x <? key y)%Z eqn:Hlt; [|reflexivity].
  apply Z.ltb_lt in Hlt.
  change (filter (has_key key s) (y :: insert_desc key x l))
    with (if has_key key s y
          then y :: filter (has_key key s) (insert_desc key x l)
          else filter (has_key key s) (insert_desc key x l)).
  rewrite IH. simpl. unfold has_key.
  destruct (key x =? s)%Z eqn:Hx, (key y =? s)%Z eqn:Hy; try reflexivity.
  apply Z.eqb_eq in Hx, Hy. lia.
Qed.

(** Elements of equal key keep the order they had. *)
Lemma sorted_reverse_stable (s : Z) (l : list A) :
  filter (has_key key s) (sorted_reverse key l) = filter (has_key key s) l.
Proof.
  induction l as [|x l IH]; [reflexivity|].
  unfold sorted_reverse in *. simpl fold_right.
  rewrite insert_desc_stable. simpl. now rewrite IH.
Qed.

Lemma has_key_self (x : A) : has_key key (key x) x = true.
Proof. apply Z.eqb_refl. Qed.

Lemma filter_has_key_In (s : Z) (x : A) (l : list A) :
  In x (filter (has_key key s) l) -> In x l /\ key x = s.
Proof.
  intros H. apply filter_In in H as [Hin Hk]. split; [assumption|].
  now apply Z.eqb_eq.
Qed.

(** A sorted list is determined by its elements of each key in their
    order: [sorted_reverse] is the stable sort. *)
Lemma stable_sort_unique (l1 l2 : list A) :
  StronglySorted (desc key) l1 -> StronglySorted (desc key) l2 ->
  (forall s, filter (has_key key s) l1 = filter (has_key key s) l2) ->
  l1 = l2.
Proof.
  intros H1. revert l2. induction H1 as [|x t1 Ht1 IH Hx]; intros l2 H2 Heq.
  - destruct l2 as [|y t2]; [reflexivity|].
    specialize (Heq (key y)). simpl in Heq. rewrite has_key_self in Heq.
    discriminate.
  - destruct H2 as [|y t2 Ht2 Hy].
    { specialize (Heq (key x)). simpl in Heq. rewrite has_key_self in Heq.
      discriminate. }
    assert (Hin : In x (y :: t2)).
    { apply (filter_has_key_In (key x)). rewrite <- Heq.
      apply filter_In. split; [now left|apply has_key_self]. }
    assert (Hin' : In y (x :: t1)).
    { apply (filter_has_key_In (key y)). rewrite Heq.
      apply filter_In. split; [now left|apply has_key_self]. }
    assert (Hxy : key x = key y).
    { rewrite Forall_forall in Hx, Hy. unfold desc in Hx, Hy.
      destruct Hin as [->|Hin]; [reflexivity|].
      destruct Hin' as [->|Hin']; [reflexivity|].
      specialize (Hx _ Hin'). specialize (Hy _ Hin). lia. }
    assert (Hsame : forall s, has_key key s x = has_key key s y)
      by (intros s; unfold has_key; now rewrite Hxy).
    assert (Hhead : x = y /\ forall s, filter (has_key key s) t1
                                       = filter (has_key key s) t2).
    { split.
      - pose proof (Heq (key y)) as E. cbn [filter] in E.
        rewrite Hsame, has_key_self in E. now injection E.
      - intros s. pose proof (Heq s) as E. cbn [filter] in E.
        rewrite Hsame in E.
        destruct (has_key key s y); [now injection E|exact E]. }
    destruct Hhead as [-> Htail]. f_equal. now apply IH.
Qed.

Lemma sorted_reverse_unique (l l' : list A) :
  StronglySorted (desc key) l' ->
  (forall s, filter (has_key key s) l' = filter (has_key key s) l) ->
  l' = sorted_reverse key l.
Proof.
  intros Hs Hst. apply stable_sort_unique;
    [assumption|apply sorted_reverse_sorted|].
  intros s. now rewrite sorted_reverse_stable.
Qed.

Lemma StronglySorted_firstn (R : A -> A -> Prop) (n : nat) (l : list A) :
  StronglySorted R l -> StronglySorted R (firstn n l).
Proof.
  intros Hs. revert n. induction Hs as [|x l Hs IH Hall]; intros [|n]; simpl;
    try constructor.
  - apply IH.
  - rewrite Forall_forall in *. intros y Hy. apply Hall.
    rewrite <- (firstn_skipn n l). apply in_or_app. now left.
Qed.

Lemma filter_firstn_prefix (p : A -> bool) (n : nat) (l : list A) :
  exists rest, filter p l = filter p (firstn n l) ++ rest.
Proof.
  exists (filter p (skipn n l)).
  now rewrite <- filter_app, firstn_skipn.
Qed.

End Sorting.

(** ** Loops *)

(** A loop whose body appends [g x] to a list appends them all, in order. *)
Lemma for_appends {A B : Type} (xs : list A) (g : A -> list B)
    (body : A -> list B -> result (list B)) (acc : list B) :
  (forall x acc', In x xs -> body x acc' = Ok (acc' ++ g x)) ->
  for_ xs body acc = Ok (acc ++ flat_map g xs).
Proof.
  revert acc. induction xs as [|x xs IH]; intros acc Hbody; simpl.
  - now rewrite app_nil_r.
  - rewrite Hbody by now left. simpl.
    rewrite IH by (intros; apply Hbody; now right).
    now rewrite app_assoc.
Qed.

Lemma flat_map_filter_map {A B : Type} (p : B -> bool) (f : A -> B)
    (l : list A) :
  flat_map (fun x => if p (f x) then [f x] else []) l = filter p (map f l).
Proof.
  induction l as [|x l IH]; simpl; [reflexivity|].
  rewrite IH. now destruct (p (f x)).
Qed.

(** ** Files *)

Lemma strip_prefix_app (base r : list str) :
  strip_prefix base (base ++ r) = Some r.
Proof.
  induction base as [|b base IH]; simpl; [reflexivity|].
  now rewrite str_eqb_refl.
Qed.

Lemma rglob_below (e : env) (d f : Path) :
  In f (rglob e d) ->
  exists r, f = mkPath (absolute d) (parts d ++ r).
Proof.
  unfold rglob. destruct (lookup e d); [|contradiction].
  rewrite in_map_iff. intros (r & <- & _). now exists r.
Qed.

(** A path found by [rglob] is relative to the directory searched. *)
Lemma rglob_relative_to (e : env) (d f : Path) :
  In f (rglob e d) -> relative_to f d = Ok (mkPath false (skipn (List.length (parts d)) (parts f))).
Proof.
  intros Hin. destruct (rglob_below _ _ _ Hin) as (r & ->).
  unfold relative_to; simpl.
  rewrite Bool.eqb_reflx, strip_prefix_app.
  rewrite skipn_app, skipn_all, Nat.sub_diag. reflexivity.
Qed.

Lemma rglob_rel_path_of (e : env) (d f : Path) :
  In f (rglob e d) ->
  exists rel, relative_to f d = Ok rel /\ to_str rel = rel_path_of d f.
Proof.
  intros Hin. eexists. split; [apply (rglob_relative_to _ _ _ Hin)|].
  unfold rel_path_of. now rewrite (rglob_relative_to _ _ _ Hin).
Qed.

Lemma get_code_files_In (e : env) (d f : Path) :
  In f (get_code_files e d) ->
  In f (rglob e d) /\ is_file e f = true /\ mem (suffix f) CODE_EXTENSIONS = true.
Proof.
  unfold get_code_files.
  destruct (negb (exists_ e d) || negb (is_dir e d))%bool; [contradiction|].
  rewrite filter_In, andb_true_iff. tauto.
Qed.

(** ** Decoding with errors ignored never fails *)

Lemma emit_ok (c : char) (r : result str) :
  (exists s, r = Ok s) -> exists s, Utf8.emit c r = Ok s.
Proof. intros (s & ->). now eexists. Qed.

Lemma decode_ignore_total_upto (n : nat) (bs : list byte) :
  List.length bs <= n -> exists s, Utf8.decode Utf8.Ignore bs = Ok s.
Proof.
  revert bs. induction n as [|n IH]; intros bs Hlen.
  - destruct bs; [now eexists|simpl in Hlen; lia].
  - destruct bs as [|b0 r0]; [now eexists|].
    assert (H0 : exists s, Utf8.decode Utf8.Ignore r0 = Ok s)
      by (apply IH; simpl in Hlen; lia).
    cbn [Utf8.decode Utf8.on_error].
    destruct (N.ltb (Byte.to_N b0) 128); [now apply emit_ok|].
    destruct (N.ltb (Byte.to_N b0) 194 || N.ltb 244 (Byte.to_N b0))%bool;
      [assumption|].
    destruct r0 as [|b1 r1]; [now eexists|].
    assert (H1 : exists s, Utf8.decode Utf8.Ignore r1 = Ok s)
      by (apply IH; simpl in Hlen; lia).
    destruct (negb (Utf8.second_ok (Byte.to_N b0) b1)); [assumption|].
    destruct (N.ltb (Byte.to_N b0) 224); [now apply emit_ok|].
    destruct r1 as [|b2 r2]; [now eexists|].
    assert (H2 : exists s, Utf8.decode Utf8.Ignore r2 = Ok s)
      by (apply IH; simpl in Hlen; lia).
    destruct (negb (Utf8.cont b2)); [assumption|].
    destruct (N.ltb (Byte.to_N b0) 240); [now apply emit_ok|].
    destruct r2 as [|b3 r3]; [now eexists|].
    assert (H3 : exists s, Utf8.decode Utf8.Ignore r3 = Ok s)
      by (apply IH; simpl in Hlen; lia).
    destruct (negb (Utf8.cont b3)); [assumption|].
    now apply emit_ok.
Qed.

Lemma decode_ignore_total (bs : list byte) :
  exists s, Utf8.decode Utf8.Ignore bs = Ok s.
Proof. apply (decode_ignore_total_upto (List.length bs)). lia. Qed.

(** Reading a regular file as text, errors ignored, returns its text. *)
Lemma read_text_file (e : env) (f : Path) :
  is_file e f = true ->
  exists data s,
    read_bytes e f = Ok data /\ Utf8.decode Utf8.Ignore data = Ok s
    /\ read_text Utf8.Ignore e f = Ok (text_of e f)
    /\ text_of e f = universal_newlines s.
Proof.
  unfold is_file, text_of, read_text, read_bytes.
  destruct (lookup e f) as [[data|es]|]; try discriminate. intros _.
  destruct (decode_ignore_total data) as (s & Hs).
  exists data, s. simpl. rewrite Hs. simpl. auto.
Qed.

(** ** Ranking *)

Section Ranking.
Variable fuzzy_match : str -> str -> fuzzy_result.
Variable highlight_match : str -> str -> str.

Lemma keyword_loop (e : env) (f : Path) (rel_path : str) (keywords : list str)
    (t : Z) :
  is_file e f = true ->
  for_ keywords (keyword_step fuzzy_match e f rel_path) t
  = Ok (t + total_score fuzzy_match keywords (lower rel_path)
              (lower (prefix 1000 (text_of e f))))%Z.
Proof.
  intros Hf. destruct (read_text_file e f Hf) as (data & s & _ & _ & Hread & _).
  revert t. induction keywords as [|k ks IH]; intros t.
  - simpl. unfold total_score, sumZ. simpl. f_equal. lia.
  - cbn [for_]. unfold keyword_step at 1. rewrite Hread. cbn [bind].
    rewrite IH. f_equal. unfold total_score, sumZ, keyword_score,
      PATH_WEIGHT, CONTENT_WEIGHT. simpl. lia.
Qed.

Lemma feature_step_spec (e : env) (target_dir : Path) (keywords : list str)
    (f : Path) (acc : list (Z * str)) :
  In f (get_code_files e target_dir) ->
  feature_step fuzzy_match e target_dir keywords f acc
  = Ok (acc ++ (if (0 <? fst (scored fuzzy_match e target_dir keywords f))%Z
                then [scored fuzzy_match e target_dir keywords f] else [])).
Proof.
  intros Hin. apply get_code_files_In in Hin as (Hglob & Hfile & _).
  destruct (rglob_rel_path_of _ _ _ Hglob) as (rel & Hrel & Hstr).
  unfold feature_step. rewrite Hrel. cbn [bind].
  rewrite (keyword_loop _ _ _ _ _ Hfile). cbn [bind].
  unfold scored. rewrite Hstr. cbn [fst]. rewrite Z.add_0_l.
  destruct (0 <? _)%Z; [reflexivity|now rewrite app_nil_r].
Qed.

Lemma score_files_for_feature_spec (e : env) (target_dir : Path)
    (keywords : list str) :
  score_files_for_feature fuzzy_match e (get_code_files e target_dir)
    target_dir keywords
  = Ok (kept fuzzy_match e target_dir keywords).
Proof.
  unfold score_files_for_feature, kept.
  rewrite <- flat_map_filter_map.
  rewrite (for_appends _
             (fun f => if (0 <? fst (scored fuzzy_match e target_dir keywords f))%Z
                       then [scored fuzzy_match e target_dir keywords f] else []));
    [reflexivity|].
  intros f acc Hin. now apply feature_step_spec.
Qed.

Lemma recommended_spec (e : env) (target_dir : Path) (desc : str) :
  recommended fuzzy_match e (get_code_files e target_dir) target_dir desc
  = Ok (firstn 5 (sorted_reverse fst
                    (kept fuzzy_match e target_dir (split (lower desc))))).
Proof.
  unfold recommended. now rewrite score_files_for_feature_spec.
Qed.

Lemma recommend_files_spec (e : env) (self : CodebaseScanner) (desc : str)
    (repo_name folder_path : option str) (target_dir : Path) :
  resolve_target_dir e self repo_name folder_path = Some target_dir ->
  get_code_files e target_dir <> [] ->
  recommend_files fuzzy_match e self desc repo_name folder_path
  = Ok (format_recommendations desc
          (firstn 5 (sorted_reverse fst
                       (kept fuzzy_match e target_dir (split (lower desc)))))).
Proof.
  intros Hdir Hfiles. unfold recommend_files. rewrite Hdir.
  pose proof (recommended_spec e target_dir desc) as Hrec.
  destruct (get_code_files e target_dir) as [|f0 fs]; [contradiction|].
  now rewrite Hrec.
Qed.

Lemma kept_positive (e : env) (target_dir : Path) (keywords : list str) :
  Forall (fun x => (0 < fst x)%Z) (kept fuzzy_match e target_dir keywords).
Proof.
  apply Forall_forall. intros x Hx. unfold kept in Hx.
  apply filter_In in Hx as [_ Hx]. now apply Z.ltb_lt.
Qed.

Lemma fuzzy_loop (query : str) (file_paths : list str)
    (acc : list (Z * str * str)) :
  fold_left (fun acc path => fuzzy_step fuzzy_match highlight_match query path acc)
            file_paths acc
  = acc ++ flat_map (fuzzy_hit fuzzy_match highlight_match query) file_paths.
Proof.
  revert acc. induction file_paths as [|p ps IH]; intros acc; simpl.
  - now rewrite app_nil_r.
  - rewrite IH. unfold fuzzy_step, fuzzy_hit, path_score.
    destruct (0 <? _)%Z; simpl; [now rewrite <- app_assoc|reflexivity].
Qed.

Lemma fuzzy_hits_positive (query : str) (file_paths : list str) :
  Forall (fun x => (0 < fst (fst x))%Z) (flat_map (fuzzy_hit fuzzy_match highlight_match query) file_paths).
Proof.
  apply Forall_forall. intros x Hx. apply in_flat_map in Hx as (p & _ & Hx).
  unfold fuzzy_hit in Hx. destruct (0 <? _)%Z eqn:Hpos; [|contradiction].
  destruct Hx as [<-|[]]. now apply Z.ltb_lt.
Qed.

Lemma fuzzy_hits_by_score (query : str) (file_paths : list str) (s : Z) :
  map (fun x => snd (fst x))
      (filter (has_key (fun x => fst (fst x)) s)
              (flat_map (fuzzy_hit fuzzy_match highlight_match query) file_paths))
  = filter (fun p => (path_score fuzzy_match query p =? s)%Z && (0 <? s)%Z)%bool
           file_paths.
Proof.
  induction file_paths as [|p ps IH]; simpl; [reflexivity|].
  rewrite filter_app, map_app, IH. unfold fuzzy_hit, has_key.
  destruct (0 <? path_score fuzzy_match query p)%Z eqn:Hpos; simpl.
  - destruct (path_score fuzzy_match query p =? s)%Z eqn:Heq; simpl;
      [|reflexivity].
    apply Z.eqb_eq in Heq. rewrite <- Heq, Hpos. reflexivity.
  - destruct (path_score fuzzy_match query p =? s)%Z eqn:Heq; simpl;
      [|reflexivity].
    apply Z.eqb_eq in Heq. rewrite <- Heq, Hpos. reflexivity.
Qed.

(** C1. The feature recommender gives each code file the sum, over the
    keywords (the feature description lower-cased and split at white space),
    of three times the fuzzy score of the keyword against the relative path
    plus twice its fuzzy score against the first 1000 characters of the
    content (path and content being lower-cased for the match, as every
    caller of the matcher does); files of total score 0 are left out, and
    the answer lists the first 5 of the others by decreasing total. *)
Theorem C1_recommend_files_scoring (e : env) (self : CodebaseScanner)
    (feature_description : str) (repo_name folder_path : option str)
    (target_dir : Path) :
  resolve_target_dir e self repo_name folder_path = Some target_dir ->
  get_code_files e target_dir <> [] ->
  let code_files := get_code_files e target_dir in
  let keywords := split (lower feature_description) in
  let total f :=
    sumZ (map (fun keyword =>
                 score_of (fuzzy_match keyword (lower (rel_path_of target_dir f))) * 3
                 + score_of (fuzzy_match keyword
                               (lower (firstn 1000 (text_of e f)))) * 2)%Z
              keywords) in
  let candidates := map (fun f => (total f, rel_path_of target_dir f)) code_files in
  let nonzero := filter (fun x => (0 <? fst x)%Z) candidates in
  let ranked := sorted_reverse fst nonzero in
  (forall f, In f code_files ->
     read_text Utf8.Ignore e f = Ok (text_of e f)
     /\ exists rel, relative_to f target_dir = Ok rel
                    /\ to_str rel = rel_path_of target_dir f)
  /\ score_files_for_feature fuzzy_match e code_files target_dir keywords
     = Ok nonzero
  /\ ((forall q t, 0 <= score_of (fuzzy_match q t))%Z ->
      nonzero = filter (fun x => negb (fst x =? 0)%Z) candidates)
  /\ Permutation ranked nonzero
  /\ StronglySorted (desc fst) ranked
  /\ recommend_files fuzzy_match e self feature_description repo_name folder_path
     = Ok (format_recommendations feature_description (firstn 5 ranked))
  /\ List.length (firstn 5 ranked) <= 5
  /\ Forall (fun x => fst x <> 0%Z) (firstn 5 ranked).
Proof.
  intros Hdir Hfiles code_files keywords total candidates nonzero ranked.
  assert (Hkept : nonzero = kept fuzzy_match e target_dir keywords) by reflexivity.
  assert (Hpos : Forall (fun x => (0 < fst x)%Z) nonzero)
    by (rewrite Hkept; apply kept_positive).
  split; [|split; [|split; [|split; [|split; [|split; [|split]]]]]].
  - intros f Hin. apply get_code_files_In in Hin as (Hglob & Hfile & _).
    split; [|now apply (rglob_rel_path_of e)].
    now destruct (read_text_file e f Hfile) as (? & ? & _ & _ & H & _).
  - rewrite Hkept. apply score_files_for_feature_spec.
  - intros Hnonneg. unfold nonzero. apply filter_ext_in. intros x Hx.
    apply in_map_iff in Hx as (f & <- & _). cbn [fst].
    assert (0 <= total f)%Z.
    { unfold total, sumZ. generalize keywords. intros ks.
      induction ks as [|k ks IH]; cbn [map fold_right]; [lia|].
      pose proof (Hnonneg k (lower (rel_path_of target_dir f))).
      pose proof (Hnonneg k (lower (firstn 1000 (text_of e f)))). lia. }
    destruct (0 <? total f)%Z eqn:H1, (total f =? 0)%Z eqn:H2; simpl;
      try reflexivity; lia.
  - apply sorted_reverse_perm.
  - apply sorted_reverse_sorted.
  - now apply recommend_files_spec.
  - rewrite length_firstn. lia.
  - apply Forall_forall. intros x Hx.
    assert (Hin : In x nonzero).
    { apply (Permutation_in _ (sorted_reverse_perm fst nonzero)).
      fold ranked. rewrite <- (firstn_skipn 5 ranked).
      apply in_or_app. now left. }
    rewrite Forall_forall in Hpos. specialize (Hpos x Hin). lia.
Qed.

(** C5. The lists of path search and of feature recommendation are in
    decreasing order of score, hold no score that is 0 or less, and among
    equal scores keep the order in which the files were found. *)
Theorem C5_results_sorted_positive_stable (e : env) (target_dir : Path)
    (feature_description query : str) (file_paths : list str) :
  let found := score_files_fuzzy fuzzy_match highlight_match query file_paths in
  let score3 := fun x : Z * str * str => fst (fst x) in
  let nonzero :=
    kept fuzzy_match e target_dir (split (lower feature_description)) in
  let top := firstn 5 (sorted_reverse fst nonzero) in
  (StronglySorted (desc score3) found
   /\ Forall (fun x => (0 < score3 x)%Z) found
   /\ forall s,
        map (fun x => snd (fst x)) (filter (has_key score3 s) found)
        = filter (fun p => (path_score fuzzy_match query p =? s)%Z
                           && (0 <? s)%Z)%bool file_paths)
  /\ (recommended fuzzy_match e (get_code_files e target_dir) target_dir
        feature_description = Ok top
      /\ StronglySorted (desc fst) top
      /\ Forall (fun x => (0 < fst x)%Z) top
      /\ forall s, exists rest,
           filter (has_key fst s) nonzero = filter (has_key fst s) top ++ rest).
Proof.
  intros found score3 nonzero top. split.
  - unfold found, score_files_fuzzy. rewrite fuzzy_loop. cbn [app].
    split; [apply sorted_reverse_sorted|split].
    + apply Forall_forall. intros x Hx.
      apply (Permutation_in _ (sorted_reverse_perm _ _)) in Hx.
      pose proof (fuzzy_hits_positive query file_paths) as Hpos.
      rewrite Forall_forall in Hpos. now apply Hpos.
    + intros s. fold score3. rewrite sorted_reverse_stable.
      apply fuzzy_hits_by_score.
  - split; [apply recommended_spec|split; [|split]].
    + apply StronglySorted_firstn, sorted_reverse_sorted.
    + apply Forall_forall. intros x Hx.
      assert (Hin : In x nonzero).
      { apply (Permutation_in _ (sorted_reverse_perm fst nonzero)).
        rewrite <- (firstn_skipn 5 (sorted_reverse fst nonzero)).
        apply in_or_app. now left. }
      pose proof (kept_positive e target_dir
                    (split (lower feature_description))) as Hpos.
      rewrite Forall_forall in Hpos. now apply Hpos.
    + intros s. rewrite <- (sorted_reverse_stable fst s nonzero).
      apply filter_firstn_prefix.
Qed.

End Ranking.

(** Scenario A of the specification, with the stand-in matcher. *)
Example path_search_scenario_A :
  score_files_fuzzy Demo.demo_fuzzy Demo.demo_highlight (lit "auth")
    (map lit ["auth/login.py"; "utils/math.py"; "auth/signup.py"])
  = [(5%Z, lit "auth/login.py", lit "auth/login.py");
     (5%Z, lit "auth/signup.py", lit "auth/signup.py")].
Proof. vm_compute. reflexivity. Qed.

(** ** Route extraction *)

Lemma first_match_spec (patterns : list pattern) (line : str) (p : pattern)
    (m : rmatch) :
  first_match patterns line = Some (p, m) ->
  exists i,
    nth_error patterns i = Some p /\ search p line = Some m
    /\ forall j q, j < i -> nth_error patterns j = Some q ->
                   search q line = None.
Proof.
  induction patterns as [|p0 ps IH]; simpl; [discriminate|].
  destruct (search p0 line) as [m0|] eqn:H0.
  - intros [= <- <-]. exists 0. repeat split; [assumption|]. intros; lia.
  - intros H. destruct (IH H) as (i & Hnth & Hs & Hbefore).
    exists (S i). repeat split; try assumption.
    intros [|j] q Hj; simpl; [now intros [= <-]|].
    apply Hbefore. lia.
Qed.

Lemma first_match_none (patterns : list pattern) (line : str) :
  (forall p, In p patterns -> search p line = None) ->
  first_match patterns line = None.
Proof.
  induction patterns as [|p0 ps IH]; simpl; [reflexivity|]. intros H.
  rewrite (H p0) by now left. apply IH. intros; apply H; now right.
Qed.

Lemma first_match_complete (patterns : list pattern) (line : str) :
  forall i p m,
    nth_error patterns i = Some p -> search p line = Some m ->
    (forall j q, j < i -> nth_error patterns j = Some q ->
                 search q line = None) ->
    first_match patterns line = Some (p, m).
Proof.
  induction patterns as [|p0 ps IH]; intros i p m Hnth Hs Hbefore.
  - destruct i; discriminate.
  - destruct i as [|i]; cbn [nth_error] in Hnth; cbn [first_match].
    + injection Hnth as ->. now rewrite Hs.
    + rewrite (Hbefore 0 p0) by (lia || reflexivity).
      apply (IH i); [assumption|assumption|].
      intros j q Hj Hq. apply (Hbefore (S j)); [lia|exact Hq].
Qed.

Lemma scan_line_spec (patterns : list pattern) (f repo_root rel : Path)
    (line : str) (entries : list RouteEntry) :
  relative_to f repo_root = Ok rel ->
  scan_line patterns f repo_root line entries
  = Ok (entries ++ match first_match patterns line with
                   | Some (p, m) => [entry_of p m (to_str rel) line]
                   | None => []
                   end).
Proof.
  intros Hrel. induction patterns as [|p ps IH]; simpl.
  - now rewrite app_nil_r.
  - destruct (search p line); [|exact IH]. now rewrite Hrel.
Qed.

Lemma scan_line_entries (f repo_root rel : Path) (line : str)
    (entries : list RouteEntry) :
  relative_to f repo_root = Ok rel ->
  scan_line route_patterns f repo_root line entries
  = Ok (entries ++ line_entries (to_str rel) line).
Proof. intros Hrel. unfold line_entries. exact (scan_line_spec _ _ _ _ _ _ Hrel). Qed.

Lemma scan_file_spec (e : env) (repo_root f : Path)
    (entries : list RouteEntry) :
  In f (rglob e repo_root) ->
  scan_file e repo_root f entries = Ok (entries ++ file_entries e repo_root f).
Proof.
  intros Hin. unfold scan_file, file_entries, scanned.
  rewrite <- negb_andb.
  destruct (is_file e f) eqn:Hfile; cbn [negb andb];
    [|now rewrite app_nil_r].
  destruct (mem (lower (suffix f)) allowed_exts); cbn [negb];
    [|now rewrite app_nil_r].
  destruct (read_text_file e f Hfile) as (data & s & _ & _ & Hread & _).
  rewrite Hread. cbn [bind].
  destruct (rglob_rel_path_of _ _ _ Hin) as (rel & Hrel & Hstr).
  apply for_appends. intros l acc _.
  rewrite (scan_line_spec _ _ _ _ _ _ Hrel). unfold line_entries.
  now rewrite Hstr.
Qed.

(** The route scan always returns: the entries of the files in the order
    of the traversal, those of a file in the order of its lines. *)
Lemma scan_api_endpoints_spec (e : env) (repo_root : Path) :
  scan_api_endpoints e repo_root = Ok (all_entries e repo_root).
Proof.
  unfold scan_api_endpoints, all_entries.
  destruct (exists_ e repo_root) eqn:Hex; simpl.
  - rewrite (for_appends _ (file_entries e repo_root)); [reflexivity|].
    intros f acc Hin. now apply scan_file_spec.
  - unfold exists_ in Hex. unfold rglob.
    destruct (lookup e repo_root); [discriminate|reflexivity].
Qed.

Lemma line_entries_users (rel_file : str) :
  line_entries rel_file Demo.users_line
  = [mkEntry (lit "GET") (lit "/users/{id}") rel_file Demo.users_line].
Proof. vm_compute. reflexivity. Qed.

Lemma length_prefix (n : nat) (s : str) : List.length (prefix n s) <= n.
Proof. unfold prefix. rewrite length_firstn. lia. Qed.

(** C2 (as amended). An entry of the route scan holds four strings: the
    method, the route, the path of the file relative to the scanned root,
    and the matched line stripped of surrounding white space and cut to
    200 characters at most; it holds no line number. *)
Theorem C2_route_entry_fields (e : env) (repo_root : Path) :
  scan_api_endpoints e repo_root = Ok (all_entries e repo_root)
  /\ forall entry, In entry (all_entries e repo_root) ->
       exists f l p m,
         In f (rglob e repo_root) /\ is_file e f = true
         /\ In l (splitlines (text_of e f))
         /\ In p route_patterns /\ search p l = Some m
         /\ entry = entry_of p m (rel_path_of repo_root f) l
         /\ (method entry = lit "GET" \/ method entry = upper (group m 2))
         /\ file entry = rel_path_of repo_root f
         /\ line entry = firstn 200 (strip l)
         /\ List.length (line entry) <= 200.
Proof.
  split; [apply scan_api_endpoints_spec|].
  intros entry Hin. unfold all_entries in Hin.
  apply in_flat_map in Hin as (f & Hf & Hin).
  unfold file_entries, scanned in Hin.
  destruct (is_file e f) eqn:Hfile; [|contradiction].
  destruct (mem (lower (suffix f)) allowed_exts); [|contradiction].
  simpl in Hin. apply in_flat_map in Hin as (l & Hl & Hin).
  unfold line_entries in Hin.
  destruct (first_match route_patterns l) as [[p m]|] eqn:Hfm; [|contradiction].
  destruct Hin as [<-|[]].
  destruct (first_match_spec _ _ _ _ Hfm) as (i & Hnth & Hsearch & _).
  exists f, l, p, m. repeat split; try assumption.
  - eapply nth_error_In, Hnth.
  - unfold entry_of. destruct (Nat.eqb (n_groups (source p)) 3);
      cbn [method]; auto.
  - unfold entry_of. now destruct (Nat.eqb (n_groups (source p)) 3).
  - unfold entry_of. now destruct (Nat.eqb (n_groups (source p)) 3).
  - unfold entry_of. destruct (Nat.eqb (n_groups (source p)) 3); cbn [line];
      apply length_prefix.
Qed.

(** C3. On a line the patterns are tried in their order: the first that
    matches is recorded, and it alone, so the line gives one entry when a
    pattern matches and none otherwise; a pattern that does not capture a
    method gives the method [GET]; the line [@app.get("/users/{id}")]
    gives one entry, [GET] [/users/{id}]. *)
Theorem C3_first_matching_rule_only (f repo_root rel : Path) (l : str)
    (entries : list RouteEntry) :
  relative_to f repo_root = Ok rel ->
  exists new,
    scan_line route_patterns f repo_root l entries = Ok (entries ++ new)
    /\ new = line_entries (to_str rel) l
    /\ List.length new <= 1
    /\ (forall entry, In entry new ->
          exists i p m,
            nth_error route_patterns i = Some p /\ search p l = Some m
            /\ (forall j q, j < i -> nth_error route_patterns j = Some q ->
                            search q l = None)
            /\ new = [entry_of p m (to_str rel) l]
            /\ (n_groups (source p) <> 3 -> method entry = lit "GET"))
    /\ (forall i p m,
          nth_error route_patterns i = Some p -> search p l = Some m ->
          (forall j q, j < i -> nth_error route_patterns j = Some q ->
                       search q l = None) ->
          new = [entry_of p m (to_str rel) l]
          /\ (n_groups (source p) <> 3 ->
              method (entry_of p m (to_str rel) l) = lit "GET"))
    /\ ((forall p, In p route_patterns -> search p l = None) -> new = [])
    /\ scan_line route_patterns f repo_root Demo.users_line entries
       = Ok (entries ++ [mkEntry (lit "GET") (lit "/users/{id}") (to_str rel)
                           Demo.users_line]).
Proof.
  intros Hrel. exists (line_entries (to_str rel) l).
  split; [now apply scan_line_entries|].
  split; [reflexivity|].
  split; [|split; [|split; [|split]]].
  - unfold line_entries. destruct (first_match route_patterns l) as [[p m]|];
      cbn [List.length]; lia.
  - intros entry Hin. unfold line_entries in *.
    destruct (first_match route_patterns l) as [[p m]|] eqn:Hfm; [|contradiction].
    destruct Hin as [<-|[]].
    destruct (first_match_spec _ _ _ _ Hfm) as (i & Hnth & Hsearch & Hbefore).
    exists i, p, m.
    split; [exact Hnth|]. split; [exact Hsearch|]. split; [exact Hbefore|].
    split; [reflexivity|].
    intros Hn. unfold entry_of.
    destruct (Nat.eqb (n_groups (source p)) 3) eqn:H3; [|reflexivity].
    apply Nat.eqb_eq in H3. contradiction.
  - intros i p m Hnth Hsearch Hbefore. unfold line_entries.
    rewrite (first_match_complete _ _ _ _ _ Hnth Hsearch Hbefore).
    split; [reflexivity|].
    intros Hn. unfold entry_of.
    destruct (Nat.eqb (n_groups (source p)) 3) eqn:H3; [|reflexivity].
    apply Nat.eqb_eq in H3. contradiction.
  - intros Hnone. unfold line_entries.
    now rewrite (first_match_none _ _ Hnone).
  - rewrite (scan_line_entries _ _ _ _ _ Hrel).
    now rewrite line_entries_users.
Qed.

(** C2 (counterexample). The same route on line 1 of one file and on line
    2 of another gives the same entry: no line number can be read off an
    entry. *)
Lemma C2_counterexample :
  ~ exists line_number : RouteEntry -> nat,
      forall e repo_root f n l entry,
        In f (rglob e repo_root) -> scanned e f = true ->
        nth_error (splitlines (text_of e f)) n = Some l ->
        In entry (line_entries (rel_path_of repo_root f) l) ->
        line_number entry = S n.
Proof.
  intros (line_number & H).
  pose (entry := mkEntry (lit "GET") (lit "/a") (lit "a.py")
                   (lit Demo.route_line)).
  assert (H1 : line_number entry = 1).
  { apply (H (Demo.one_file (Demo.bytes Demo.route_line)) Demo.top Demo.a_py
             0 (lit Demo.route_line)).
    - vm_compute. now left.
    - reflexivity.
    - reflexivity.
    - vm_compute. now left. }
  assert (H2 : line_number entry = 2).
  { apply (H (Demo.one_file (x0a :: Demo.bytes Demo.route_line)) Demo.top
             Demo.a_py 1 (lit Demo.route_line)).
    - vm_compute. now left.
    - reflexivity.
    - reflexivity.
    - vm_compute. now left. }
  congruence.
Qed.

(** ** Undecodable files *)

Lemma emit_inv (c : char) (r : result str) (s : str) :
  Utf8.emit c r = Ok s -> exists s', r = Ok s' /\ s = c :: s'.
Proof.
  destruct r as [s'|x]; simpl; [|discriminate].
  intros [= <-]. now exists s'.
Qed.

Lemma decode_strict_ignore_upto (n : nat) (bs : list byte) (s : str) :
  List.length bs <= n ->
  Utf8.decode Utf8.Strict bs = Ok s -> Utf8.decode Utf8.Ignore bs = Ok s.
Proof.
  revert bs s. induction n as [|n IH]; intros bs s Hlen.
  - destruct bs; [trivial|simpl in Hlen; lia].
  - destruct bs as [|b0 r0]; [trivial|].
    cbn [Utf8.decode Utf8.on_error].
    destruct (N.ltb (Byte.to_N b0) 128).
    { intros H. apply emit_inv in H as (s' & H & ->).
      rewrite (IH r0 s') by (simpl in Hlen; lia || assumption). reflexivity. }
    destruct (N.ltb (Byte.to_N b0) 194 || N.ltb 244 (Byte.to_N b0))%bool;
      [discriminate|].
    destruct r0 as [|b1 r1]; [discriminate|].
    destruct (negb (Utf8.second_ok (Byte.to_N b0) b1)); [discriminate|].
    destruct (N.ltb (Byte.to_N b0) 224).
    { intros H. apply emit_inv in H as (s' & H & ->).
      rewrite (IH r1 s') by (simpl in Hlen; lia || assumption). reflexivity. }
    destruct r1 as [|b2 r2]; [discriminate|].
    destruct (negb (Utf8.cont b2)); [discriminate|].
    destruct (N.ltb (Byte.to_N b0) 240).
    { intros H. apply emit_inv in H as (s' & H & ->).
      rewrite (IH r2 s') by (simpl in Hlen; lia || assumption). reflexivity. }
    destruct r2 as [|b3 r3]; [discriminate|].
    destruct (negb (Utf8.cont b3)); [discriminate|].
    intros H. apply emit_inv in H as (s' & H & ->).
    rewrite (IH r3 s') by (simpl in Hlen; lia || assumption). reflexivity.
Qed.

(** On valid UTF-8 the two error modes agree. *)
Lemma decode_strict_ignore (bs : list byte) (s : str) :
  Utf8.decode Utf8.Strict bs = Ok s -> Utf8.decode Utf8.Ignore bs = Ok s.
Proof. apply (decode_strict_ignore_upto (List.length bs)). lia. Qed.

(** A byte that cannot start a character is dropped. *)
Lemma decode_ignore_bad_lead (b : byte) (bs : list byte) :
  (128 <= Byte.to_N b < 194 \/ 244 < Byte.to_N b)%N ->
  Utf8.decode Utf8.Ignore (b :: bs) = Utf8.decode Utf8.Ignore bs.
Proof.
  intros Hb. cbn [Utf8.decode Utf8.on_error].
  destruct (N.ltb_spec (Byte.to_N b) 128); [lia|].
  destruct (N.ltb_spec (Byte.to_N b) 194), (N.ltb_spec 244 (Byte.to_N b));
    simpl; try reflexivity; lia.
Qed.

(** C7 (counterexample). A file that is not valid UTF-8 is not skipped:
    [bad.js] of the example tree, whose first and last bytes cannot be
    decoded, still contributes the route written between them. *)
Lemma C7_counterexample :
  ~ forall e repo_root f data entries,
      In f (rglob e repo_root) -> read_bytes e f = Ok data ->
      Utf8.decode Utf8.Strict data = Raise UnicodeDecodeError ->
      scan_file e repo_root f entries = Ok entries.
Proof.
  intros H.
  specialize (H Demo.demo_env Demo.demo_app Demo.bad_js
                ([xff; xfe] ++ Demo.bytes "app.delete('/gone')" ++ [xc3]) []).
  assert (Hscan : scan_file Demo.demo_env Demo.demo_app Demo.bad_js []
                  = Ok [mkEntry (lit "DELETE") (lit "/gone") (lit "bad.js")
                          (lit "app.delete('/gone')")])
    by (vm_compute; reflexivity).
  rewrite Hscan in H.
  enough (Ok [mkEntry (lit "DELETE") (lit "/gone") (lit "bad.js")
                (lit "app.delete('/gone')")] = Ok (@nil RouteEntry))
    by discriminate.
  apply H.
  - vm_compute. tauto.
  - reflexivity.
  - reflexivity.
Qed.

(** C7 (as amended). Files are read with decoding errors ignored: bytes
    that are not valid UTF-8 are dropped, the rest of the file is text like
    any other and is scanned; reading a regular file so never fails, the
    route scan and the feature scoring always return, and what they return
    for a file does not depend on the other files. *)
Theorem C7_undecodable_bytes_dropped
    (fuzzy_match : str -> str -> fuzzy_result) (e : env) (root : Path)
    (keywords : list str) :
  (forall data, exists s,
      Utf8.decode Utf8.Ignore data = Ok s
      /\ forall s', Utf8.decode Utf8.Strict data = Ok s' -> s' = s)
  /\ (forall b data, (128 <= Byte.to_N b < 194 \/ 244 < Byte.to_N b)%N ->
        Utf8.decode Utf8.Ignore (b :: data) = Utf8.decode Utf8.Ignore data)
  /\ (forall f, is_file e f = true ->
        exists data s,
          read_bytes e f = Ok data /\ Utf8.decode Utf8.Ignore data = Ok s
          /\ read_text Utf8.Ignore e f = Ok (universal_newlines s)
          /\ text_of e f = universal_newlines s)
  /\ scan_api_endpoints e root
     = Ok (flat_map (file_entries e root) (rglob e root))
  /\ score_files_for_feature fuzzy_match e (get_code_files e root) root keywords
     = Ok (filter (fun x => (0 <? fst x)%Z)
             (map (scored fuzzy_match e root keywords) (get_code_files e root))).
Proof.
  split; [|split; [|split; [|split]]].
  - intros data. destruct (decode_ignore_total data) as (s & Hs).
    exists s. split; [assumption|]. intros s' Hstrict.
    apply decode_strict_ignore in Hstrict. congruence.
  - intros b data. apply decode_ignore_bad_lead.
  - intros f Hfile.
    destruct (read_text_file e f Hfile) as (data & s & H1 & H2 & H3 & H4).
    exists data, s. rewrite <- H4. auto.
  - apply scan_api_endpoints_spec.
  - apply score_files_for_feature_spec.
Qed.

(** ** Structural extraction *)

Lemma extract_step_spec (i : nat) (line : str) (cs fs ims : list str) :
  extract_step i line (cs, fs, ims)
  = (cs ++ line_classes i line, fs ++ line_functions i line,
     ims ++ line_imports line).
Proof.
  unfold extract_step, line_classes, line_functions, line_imports,
    is_public_def_line, is_import_line, is_def_line, is_class_line.
  destruct (startswith (strip line) (lit "class ")); cbn [negb andb].
  { now rewrite !app_nil_r. }
  destruct (startswith (strip line) (lit "def ")); cbn [negb andb].
  { destruct (startswith (func_name_of (strip line)) (lit "_")); cbn [negb];
      now rewrite !app_nil_r. }
  destruct (startswith (strip line) (lit "import ")
            || startswith (strip line) (lit "from "))%bool;
    now rewrite !app_nil_r.
Qed.

Lemma extract_loop_spec (i : nat) (lines : list str) (cs fs ims : list str) :
  extract_loop i lines (cs, fs, ims)
  = (cs ++ flat_map (fun jl => line_classes (fst jl) (snd jl)) (numbered i lines),
     fs ++ flat_map (fun jl => line_functions (fst jl) (snd jl)) (numbered i lines),
     ims ++ flat_map (fun jl => line_imports (snd jl)) (numbered i lines)).
Proof.
  revert i cs fs ims. induction lines as [|l ls IH]; intros i cs fs ims.
  - simpl. now rewrite !app_nil_r.
  - cbn [extract_loop numbered flat_map fst snd].
    rewrite extract_step_spec, IH. now rewrite <- !app_assoc.
Qed.

Lemma numbered_In {A : Type} (i j : nat) (x : A) (l : list A) :
  In (j, x) (numbered i l) -> i <= j /\ nth_error l (j - i) = Some x.
Proof.
  revert i. induction l as [|y l IH]; intros i; simpl; [contradiction|].
  intros [[= <- <-]|Hin].
  - rewrite Nat.sub_diag. auto.
  - apply IH in Hin as [Hle Hnth]. split; [lia|].
    replace (j - i) with (S (j - S i)) by lia. exact Hnth.
Qed.

Lemma nth_error_firstn_Some {A : Type} (n k : nat) (l : list A) (x : A) :
  nth_error (firstn n l) k = Some x -> k < n /\ nth_error l k = Some x.
Proof.
  revert k l. induction n as [|n IH]; intros k l; simpl.
  - destruct k; discriminate.
  - destruct l as [|y l]; [destruct k; discriminate|].
    destruct k as [|k]; simpl; [intros [= <-]; split; [lia|reflexivity]|].
    intros H. apply IH in H as [Hk Hnth]. split; [lia|assumption].
Qed.

(** A numbered line of the first 100. *)
Lemma numbered_first_100 (lines : list str) (j : nat) (l : str) :
  In (j, l) (numbered 1 (firstn 100 lines)) ->
  1 <= j <= 100 /\ nth_error lines (j - 1) = Some l.
Proof.
  intros Hin. apply numbered_In in Hin as [Hle Hnth].
  apply nth_error_firstn_Some in Hnth as [Hlt Hnth].
  split; [lia|assumption].
Qed.

Lemma firstn_app_long {A : Type} (n : nat) (l1 l2 : list A) :
  n <= List.length l1 -> firstn n (l1 ++ l2) = firstn n l1.
Proof.
  intros Hlen. rewrite firstn_app.
  replace (n - List.length l1) with 0 by lia.
  simpl. apply app_nil_r.
Qed.

(** C4. The structural extractor looks at the first 100 lines only: its
    answer is that of the first 100 lines, whatever follows them leaves it
    unchanged, and every class, function and import it reports stands on a
    line numbered from 1 to 100. *)
Theorem C4_first_100_lines_only (lines : list str) :
  let classes := fst (fst (extract_code_elements lines)) in
  let functions := snd (fst (extract_code_elements lines)) in
  let imports := snd (extract_code_elements lines) in
  extract_code_elements lines = extract_code_elements (firstn 100 lines)
  /\ (forall later, 100 <= List.length lines ->
        extract_code_elements (lines ++ later) = extract_code_elements lines)
  /\ (forall c, In c classes ->
        exists i l, 1 <= i <= 100 /\ nth_error lines (i - 1) = Some l
                    /\ is_class_line l = true
                    /\ c = class_entry (class_name_of (strip l)) i)
  /\ (forall fn, In fn functions ->
        exists i l, 1 <= i <= 100 /\ nth_error lines (i - 1) = Some l
                    /\ is_public_def_line l = true
                    /\ fn = function_entry (func_name_of (strip l)) i)
  /\ (forall imp, In imp imports ->
        exists i l, 1 <= i <= 100 /\ nth_error lines (i - 1) = Some l
                    /\ is_import_line l = true /\ imp = strip l).
Proof.
  intros classes functions imports.
  split; [unfold extract_code_elements; now rewrite firstn_firstn, Nat.min_id|].
  split; [intros later Hlen; unfold extract_code_elements;
          now rewrite firstn_app_long|].
  unfold classes, functions, imports, extract_code_elements.
  rewrite extract_loop_spec. cbn [fst snd app].
  split; [|split].
  - intros c Hin. apply in_flat_map in Hin as ([j l] & Hjl & Hin).
    apply numbered_first_100 in Hjl as [Hj Hnth]. cbn [fst snd] in Hin.
    unfold line_classes in Hin.
    destruct (is_class_line l) eqn:Hc; [|contradiction].
    destruct Hin as [<-|[]]. now exists j, l.
  - intros fn Hin. apply in_flat_map in Hin as ([j l] & Hjl & Hin).
    apply numbered_first_100 in Hjl as [Hj Hnth]. cbn [fst snd] in Hin.
    unfold line_functions in Hin.
    destruct (is_public_def_line l) eqn:Hc; [|contradiction].
    destruct Hin as [<-|[]]. now exists j, l.
  - intros imp Hin. apply in_flat_map in Hin as ([j l] & Hjl & Hin).
    apply numbered_first_100 in Hjl as [Hj Hnth]. cbn [fst snd] in Hin.
    unfold line_imports in Hin.
    destruct (is_import_line l) eqn:Hc; [|contradiction].
    destruct Hin as [<-|[]]. now exists j, l.
Qed.

(** C6. On the five lines of [UserAuth] the extractor reports the class
    [UserAuth] at line 1 and the function [login] at line 2, nothing else:
    [_hash] starts with an underscore. A line defining such a function adds
    nothing and the scan goes on with the next line. *)
Theorem C6_user_auth_summary :
  extract_code_elements Demo.user_auth_lines
  = ([class_entry (lit "UserAuth") 1], [function_entry (lit "login") 2], [])
  /\ class_entry (lit "UserAuth") 1 = lit "  - UserAuth (line 1)"
  /\ function_entry (lit "login") 2 = lit "  - login() (line 2)"
  /\ (forall i line rest acc,
        is_def_line line = true ->
        startswith (func_name_of (strip line)) (lit "_") = true ->
        extract_loop i (line :: rest) acc = extract_loop (S i) rest acc)
  /\ extract_code_elements
       (Demo.user_auth_lines ++ [lit "    def logout(self):"])
     = ([class_entry (lit "UserAuth") 1],
        [function_entry (lit "login") 2; function_entry (lit "logout") 6], []).
Proof.
  split; [vm_compute; reflexivity|].
  split; [vm_compute; reflexivity|].
  split; [vm_compute; reflexivity|].
  split; [|vm_compute; reflexivity].
  intros i line rest [[cs fs] ims] Hdef Hpriv.
  cbn [extract_loop]. rewrite extract_step_spec.
  unfold line_classes, line_functions, line_imports, is_public_def_line,
    is_import_line.
  unfold is_def_line in *. apply andb_true_iff in Hdef as [Hc Hd].
  apply negb_true_iff in Hc. rewrite Hc, Hd, Hpriv. cbn [negb andb].
  now rewrite !app_nil_r.
Qed.

(** ** File level operations *)

Lemma is_dir_exists (e : env) (p : Path) :
  is_dir e p = true -> exists_ e p = true /\ is_file e p = false.
Proof.
  unfold is_dir, exists_, is_file.
  destruct (lookup e p) as [[data|es]|]; try discriminate. auto.
Qed.

Lemma is_file_not_dir (e : env) (p : Path) :
  is_file e p = true -> exists_ e p = true /\ is_dir e p = false.
Proof.
  unfold is_dir, exists_, is_file.
  destruct (lookup e p) as [[data|es]|]; try discriminate. auto.
Qed.

(** [explain_file] on a directory answers with a message. *)
Lemma explain_file_on_directory (e : env) (self : CodebaseScanner)
    (file_path : str) (repo_name folder_path : option str) (target_dir : Path) :
  resolve_target_dir e self repo_name folder_path = Some target_dir ->
  is_dir e (joinpath target_dir file_path) = true ->
  explain_file e self file_path repo_name folder_path
  = Ok (file_path ++ lit " is not a file.").
Proof.
  intros Hdir Hd. apply is_dir_exists in Hd as [Hex Hnf].
  unfold explain_file. now rewrite Hdir, Hex, Hnf.
Qed.

(** [get_file_content] on a directory goes on to read it, which raises. *)
Lemma get_file_content_on_directory (e : env) (self : CodebaseScanner)
    (file_path : str) (repo_name folder_path : option str) (target_dir : Path)
    (start_line num_lines : Z) :
  resolve_target_dir e self repo_name folder_path = Some target_dir ->
  is_dir e (joinpath target_dir file_path) = true ->
  get_file_content e self file_path repo_name folder_path start_line num_lines
  = Raise IsADirectoryError.
Proof.
  intros Hdir Hd. unfold get_file_content. rewrite Hdir.
  destruct (is_dir_exists _ _ Hd) as [Hex _]. rewrite Hex. cbn [negb].
  unfold read_text, read_bytes. unfold is_dir in Hd.
  destruct (lookup e (joinpath target_dir file_path)) as [[data|es]|];
    try discriminate. reflexivity.
Qed.

Lemma get_file_content_on_file (e : env) (self : CodebaseScanner)
    (file_path : str) (repo_name folder_path : option str) (target_dir : Path)
    (start_line num_lines : Z) :
  resolve_target_dir e self repo_name folder_path = Some target_dir ->
  is_file e (joinpath target_dir file_path) = true ->
  get_file_content e self file_path repo_name folder_path start_line num_lines
  = Ok (format_file_content file_path
          (splitlines (text_of e (joinpath target_dir file_path)))
          start_line num_lines).
Proof.
  intros Hdir Hf. unfold get_file_content. rewrite Hdir.
  destruct (is_file_not_dir _ _ Hf) as [Hex _]. rewrite Hex. cbn [negb].
  destruct (read_text_file e _ Hf) as (data & s & _ & _ & Hread & _).
  now rewrite Hread.
Qed.

(** C8 (the code at the failing input). [repos/app/auth] of the example
    tree is a directory: [explain_file] answers that it is not a file,
    [get_file_content] raises [IsADirectoryError]. *)
Theorem C8_get_file_content_raises_on_directory :
  resolve_target_dir Demo.demo_env Demo.demo_scanner (Some (lit "app")) None
  = Some Demo.demo_app
  /\ is_dir Demo.demo_env (joinpath Demo.demo_app (lit "auth")) = true
  /\ explain_file Demo.demo_env Demo.demo_scanner (lit "auth")
       (Some (lit "app")) None
     = Ok (lit "auth is not a file.")
  /\ get_file_content Demo.demo_env Demo.demo_scanner (lit "auth")
       (Some (lit "app")) None 1 50
     = Raise IsADirectoryError.
Proof. repeat split; vm_compute; reflexivity. Qed.

(** C9. The file enumerator answers with the empty list when the root
    does not exist or is not a directory; what it lists otherwise are
    entries found below the root that are regular files, not directories,
    with an extension of [CODE_EXTENSIONS]. *)
Theorem C9_get_code_files_soft_and_filtered (e : env) (directory : Path) :
  ((exists_ e directory = false \/ is_dir e directory = false) ->
   get_code_files e directory = [])
  /\ (forall f, In f (get_code_files e directory) ->
        In f (rglob e directory) /\ is_file e f = true
        /\ is_dir e f = false /\ In (suffix f) CODE_EXTENSIONS).
Proof.
  split.
  - intros [H|H]; unfold get_code_files; rewrite H; cbn [negb orb];
      [reflexivity|now rewrite orb_true_r].
  - intros f Hin. apply get_code_files_In in Hin as (Hglob & Hfile & Hext).
    repeat split; try assumption.
    + now apply is_file_not_dir.
    + now apply mem_In.
Qed.

(** ** The window of [get_file_content] *)

Lemma slice_inside {A : Type} (l : list A) (a b : Z) :
  (0 <= a)%Z -> (0 <= b <= Z.of_nat (List.length l))%Z ->
  slice l a b = firstn (Z.to_nat (b - a)) (skipn (Z.to_nat a) l).
Proof.
  intros Ha Hb. unfold slice, slice_index.
  destruct (Z.ltb_spec a 0); [lia|]. destruct (Z.ltb_spec b 0); [lia|].
  rewrite (Z.min_l b) by lia.
  destruct (Z.le_gt_cases a (Z.of_nat (List.length l))) as [Hle|Hgt].
  - now rewrite Z.min_l by lia.
  - rewrite Z.min_r by lia.
    replace (Z.to_nat (b - Z.of_nat (List.length l))) with 0 by lia.
    replace (Z.to_nat (b - a)) with 0 by lia. reflexivity.
Qed.

(** C10 (counterexample). With ten lines, [start_line = 1] and
    [num_lines = -3] the end index is negative and counts from the end of
    the list: seven lines are selected. *)
Lemma C10_counterexample :
  ~ forall (lines : list str) (start_line num_lines : Z),
      List.length (snd (window lines start_line num_lines))
      <= Z.to_nat num_lines.
Proof.
  intros H.
  specialize (H (map lit ["a"; "b"; "c"; "d"; "e"; "f"; "g"; "h"; "i"; "j"])
                1%Z (-3)%Z).
  vm_compute in H. lia.
Qed.

(** C10 (as amended). For every list of lines, every [start_line] and every
    [num_lines] that is not negative, the window starts at index
    [max(0, start_line - 1)], ends at [min(len, start + num_lines)], lies
    within the lines of the file and holds [num_lines] lines at most,
    possibly none; [get_file_content] renders that window for every regular
    file. *)
Theorem C10_window_within_file (lines : list str) (start_line num_lines : Z) :
  (0 <= num_lines)%Z ->
  let start_idx := Z.max 0 (start_line - 1) in
  let end_idx := Z.min (Z.of_nat (List.length lines)) (start_idx + num_lines) in
  let selected :=
    firstn (Z.to_nat (end_idx - start_idx)) (skipn (Z.to_nat start_idx) lines) in
  window lines start_line num_lines = (start_idx, end_idx, selected)
  /\ (0 <= start_idx)%Z
  /\ (0 <= end_idx <= Z.of_nat (List.length lines))%Z
  /\ List.length selected <= Z.to_nat num_lines
  /\ (forall k l, nth_error selected k = Some l ->
        nth_error lines (Z.to_nat start_idx + k) = Some l
        /\ (start_idx + Z.of_nat k < end_idx)%Z)
  /\ (forall e self file_path repo_name folder_path target_dir,
        resolve_target_dir e self repo_name folder_path = Some target_dir ->
        is_file e (joinpath target_dir file_path) = true ->
        get_file_content e self file_path repo_name folder_path
          start_line num_lines
        = Ok (format_file_content file_path
                (splitlines (text_of e (joinpath target_dir file_path)))
                start_line num_lines)).
Proof.
  intros Hnum start_idx end_idx selected.
  assert (Hs : (0 <= start_idx)%Z) by (unfold start_idx; lia).
  assert (He : (0 <= end_idx <= Z.of_nat (List.length lines))%Z)
    by (unfold end_idx; lia).
  split; [|split; [exact Hs|split; [exact He|split; [|split]]]].
  - unfold window. fold start_idx. fold end_idx.
    now rewrite slice_inside.
  - unfold selected. rewrite length_firstn. unfold end_idx. lia.
  - intros k l Hk. unfold selected in Hk.
    rewrite nth_error_firstn in Hk.
    destruct (Nat.ltb_spec k (Z.to_nat (end_idx - start_idx)));
      [|discriminate].
    rewrite nth_error_skipn in Hk. split; [assumption|lia].
  - intros e self file_path repo_name folder_path target_dir Hdir Hfile.
    now apply get_file_content_on_file.
Qed.

(** ** The theorems at work on the example tree *)

Lemma C1_witness :
  resolve_target_dir Demo.demo_env Demo.demo_scanner (Some (lit "app")) None
  = Some Demo.demo_app
  /\ get_code_files Demo.demo_env Demo.demo_app <> []
  /\ (forall q t, 0 <= score_of (Demo.demo_fuzzy q t))%Z
  /\ exists ranked,
       Permutation ranked
         (kept Demo.demo_fuzzy Demo.demo_env Demo.demo_app
            (split (lower (lit "User LOGIN"))))
       /\ recommend_files Demo.demo_fuzzy Demo.demo_env Demo.demo_scanner
            (lit "User LOGIN") (Some (lit "app")) None
          = Ok (format_recommendations (lit "User LOGIN") (firstn 5 ranked))
       /\ Forall (fun x => fst x <> 0%Z) (firstn 5 ranked).
Proof.
  assert (H1 : resolve_target_dir Demo.demo_env Demo.demo_scanner
                 (Some (lit "app")) None = Some Demo.demo_app)
    by (vm_compute; reflexivity).
  assert (H2 : get_code_files Demo.demo_env Demo.demo_app <> [])
    by (vm_compute; discriminate).
  assert (H3 : (forall q t, 0 <= score_of (Demo.demo_fuzzy q t))%Z).
  { intros q t. unfold Demo.demo_fuzzy.
    destruct (Demo.subseq q t); simpl; lia. }
  pose proof (C1_recommend_files_scoring Demo.demo_fuzzy Demo.demo_env
                Demo.demo_scanner (lit "User LOGIN") (Some (lit "app")) None
                Demo.demo_app H1 H2) as H.
  cbv zeta in H.
  destruct H as (_ & _ & Hnz & Hperm & _ & Hrec & _ & Hall).
  pose proof (Hnz H3) as _.
  split; [exact H1|]. split; [exact H2|]. split; [exact H3|].
  eexists. split; [exact Hperm|]. split; [exact Hrec|exact Hall].
Defined.

Lemma C2_witness :
  let entry := mkEntry (lit "GET") (lit "/users") (lit "main.py")
                 (lit "@app.get('/users')") in
  In entry (all_entries Demo.demo_env Demo.demo_app)
  /\ exists f l p m,
       In f (rglob Demo.demo_env Demo.demo_app)
       /\ In l (splitlines (text_of Demo.demo_env f))
       /\ search p l = Some m
       /\ entry = entry_of p m (rel_path_of Demo.demo_app f) l
       /\ List.length (line entry) <= 200.
Proof.
  intros entry.
  assert (Hin : In entry (all_entries Demo.demo_env Demo.demo_app))
    by (vm_compute; now left).
  split; [exact Hin|].
  destruct (proj2 (C2_route_entry_fields Demo.demo_env Demo.demo_app) entry Hin)
    as (f & l & p & m & Hf & _ & Hl & _ & Hs & He & _ & _ & _ & Hlen).
  exists f, l, p, m.
  split; [exact Hf|]. split; [exact Hl|]. split; [exact Hs|].
  split; [exact He|exact Hlen].
Defined.

Lemma C3_witness :
  let f := mkPath false [lit "repos"; lit "app"; lit "main.py"] in
  let rel := mkPath false [lit "main.py"] in
  let l := lit "  router.post( '/items', f)" in
  let p := compile (seqs ([WordB;
                           Group 1 (alts [word (lit "app");
                                          word (lit "router")]);
                           word (lit "."); Group 2 http_methods]
                          ++ open_quote_route 3)) true in
  let m := mkMatch [(3, lit "/items"); (2, lit "post"); (1, lit "router")]
             (Some 3) in
  relative_to f Demo.demo_app = Ok rel
  /\ nth_error route_patterns 2 = Some p
  /\ search p l = Some m
  /\ (forall j q, j < 2 -> nth_error route_patterns j = Some q ->
                  search q l = None)
  /\ scan_line route_patterns f Demo.demo_app l []
     = Ok [mkEntry (lit "POST") (lit "/items") (lit "main.py")
             (lit "router.post( '/items', f)")].
Proof.
  intros f rel l p m.
  assert (Hrel : relative_to f Demo.demo_app = Ok rel) by reflexivity.
  assert (Hnth : nth_error route_patterns 2 = Some p) by reflexivity.
  assert (Hs : search p l = Some m) by (vm_compute; reflexivity).
  assert (Hbefore : forall j q, j < 2 -> nth_error route_patterns j = Some q ->
                                search q l = None).
  { intros [|[|j]] q Hj Hq; [| |lia].
    - injection Hq as <-. vm_compute. reflexivity.
    - injection Hq as <-. vm_compute. reflexivity. }
  split; [exact Hrel|]. split; [exact Hnth|]. split; [exact Hs|].
  split; [exact Hbefore|].
  destruct (C3_first_matching_rule_only f Demo.demo_app rel l [] Hrel)
    as (new & Hscan & _ & _ & _ & Hrec & _).
  destruct (Hrec 2 p m Hnth Hs Hbefore) as [Hnew _].
  rewrite Hscan, Hnew. reflexivity.
Defined.

Lemma C4_witness :
  let lines := Demo.user_auth_lines ++ repeat (lit "") 95 in
  100 <= List.length lines
  /\ In (class_entry (lit "UserAuth") 1) (fst (fst (extract_code_elements lines)))
  /\ extract_code_elements (lines ++ [lit "class Late:"])
     = extract_code_elements lines
  /\ exists i l, 1 <= i <= 100 /\ nth_error lines (i - 1) = Some l
                 /\ class_entry (lit "UserAuth") 1
                    = class_entry (class_name_of (strip l)) i.
Proof.
  intros lines.
  assert (Hlen : 100 <= List.length lines) by (vm_compute; lia).
  assert (Hin : In (class_entry (lit "UserAuth") 1)
                   (fst (fst (extract_code_elements lines))))
    by (vm_compute; now left).
  pose proof (C4_first_100_lines_only lines) as H. cbv zeta in H.
  destruct H as (_ & Hlater & Hclasses & _).
  split; [exact Hlen|]. split; [exact Hin|].
  split; [exact (Hlater [lit "class Late:"] Hlen)|].
  destruct (Hclasses _ Hin) as (i & l & Hi & Hnth & _ & Hc).
  exists i, l. split; [exact Hi|]. split; [exact Hnth|exact Hc].
Defined.

Lemma C6_witness :
  let line := lit "    def _hash(self, pw):" in
  is_def_line line = true
  /\ startswith (func_name_of (strip line)) (lit "_") = true
  /\ extract_loop 4 [line; lit "        pass"] ([], [], [])
     = extract_loop 5 [lit "        pass"] ([], [], []).
Proof.
  intros line.
  assert (H1 : is_def_line line = true) by reflexivity.
  assert (H2 : startswith (func_name_of (strip line)) (lit "_") = true)
    by reflexivity.
  split; [exact H1|]. split; [exact H2|].
  destruct C6_user_auth_summary as (_ & _ & _ & Hgo & _).
  exact (Hgo 4 line [lit "        pass"] ([], [], []) H1 H2).
Defined.

Lemma C7_witness :
  let main_py := mkPath false [lit "repos"; lit "app"; lit "main.py"] in
  Utf8.decode Utf8.Strict (Demo.bytes "x = 1") = Ok (lit "x = 1")
  /\ is_file Demo.demo_env main_py = true
  /\ Utf8.decode Utf8.Ignore (xff :: Demo.bytes "x = 1")
     = Utf8.decode Utf8.Ignore (Demo.bytes "x = 1")
  /\ (exists s, Utf8.decode Utf8.Ignore (Demo.bytes "x = 1") = Ok s
                /\ lit "x = 1" = s)
  /\ exists data s,
       read_bytes Demo.demo_env main_py = Ok data
       /\ read_text Utf8.Ignore Demo.demo_env main_py
          = Ok (universal_newlines s).
Proof.
  intros main_py.
  assert (H1 : Utf8.decode Utf8.Strict (Demo.bytes "x = 1") = Ok (lit "x = 1"))
    by reflexivity.
  assert (H2 : is_file Demo.demo_env main_py = true) by reflexivity.
  destruct (C7_undecodable_bytes_dropped Demo.demo_fuzzy Demo.demo_env
              Demo.demo_app []) as (Hdec & Hdrop & Hread & _).
  split; [exact H1|]. split; [exact H2|].
  split; [apply Hdrop; vm_compute; right; reflexivity|].
  split.
  - destruct (Hdec (Demo.bytes "x = 1")) as (s & Hs & Hagree).
    exists s. split; [exact Hs|exact (Hagree _ H1)].
  - destruct (Hread main_py H2) as (data & s & Hb & _ & Ht & _).
    exists data, s. split; [exact Hb|exact Ht].
Defined.

Lemma C9_witness :
  let nowhere := mkPath false [lit "nowhere"] in
  let main_py := mkPath false [lit "repos"; lit "app"; lit "main.py"] in
  exists_ Demo.demo_env nowhere = false
  /\ get_code_files Demo.demo_env nowhere = []
  /\ In main_py (get_code_files Demo.demo_env Demo.demo_app)
  /\ is_file Demo.demo_env main_py = true
  /\ is_dir Demo.demo_env main_py = false
  /\ In (suffix main_py) CODE_EXTENSIONS.
Proof.
  intros nowhere main_py.
  assert (H1 : exists_ Demo.demo_env nowhere = false) by reflexivity.
  assert (H2 : In main_py (get_code_files Demo.demo_env Demo.demo_app))
    by (vm_compute; now left).
  split; [exact H1|].
  split;
    [exact (proj1 (C9_get_code_files_soft_and_filtered Demo.demo_env nowhere)
              (or_introl H1))|].
  split; [exact H2|].
  destruct (proj2 (C9_get_code_files_soft_and_filtered Demo.demo_env
                     Demo.demo_app) main_py H2) as (_ & Hf & Hd & Hs).
  split; [exact Hf|]. split; [exact Hd|exact Hs].
Defined.

Lemma C10_witness :
  let lines := map lit ["a"; "b"; "c"; "d"; "e"; "f"; "g"; "h"; "i"; "j"] in
  (0 <= 4)%Z
  /\ window lines 3 4 = (2%Z, 6%Z, map lit ["c"; "d"; "e"; "f"])
  /\ nth_error lines (2 + 1) = Some (lit "d")
  /\ get_file_content Demo.demo_env Demo.demo_scanner (lit "main.py")
       (Some (lit "app")) None 3 4
     = Ok (format_file_content (lit "main.py")
             (splitlines (text_of Demo.demo_env
                            (joinpath Demo.demo_app (lit "main.py")))) 3 4).
Proof.
  intros lines.
  assert (H0 : (0 <= 4)%Z) by lia.
  pose proof (C10_window_within_file lines 3 4 H0) as H. cbv zeta in H.
  destruct H as (Hw & _ & _ & _ & Hnth & Hget).
  split; [exact H0|]. split; [exact Hw|].
  split; [exact (proj1 (Hnth 1 (lit "d") eq_refl))|].
  apply (Hget Demo.demo_env Demo.demo_scanner (lit "main.py")
           (Some (lit "app")) None Demo.demo_app); reflexivity.
Defined.

(** * Further properties *)

Import RegexSem ScannerOps RefOps.

(** ** The matcher finds only what the expression describes *)

Lemma run_sound (ic : bool) (r : regex) :
  forall st k res,
    run ic r st k = Some res ->
    exists st', reach ic r st st' /\ k st' = Some res.
Proof.
  induction r as [|cs|a IHa b IHb|a IHa b IHb|a IHa|i a IHa|];
    intros st k res H; cbn [run] in H.
  - exists st. split; [constructor|exact H].
  - destruct (rest st) as [|c s'] eqn:E; [discriminate|].
    destruct (cset_match ic cs c) eqn:C; [|discriminate].
    eexists. split; [eapply reach_chr; eassumption|exact H].
  - apply IHa in H as (st1 & R1 & H). apply IHb in H as (st2 & R2 & H).
    exists st2. split; [econstructor; eassumption|exact H].
  - destruct (run ic a st k) as [m|] eqn:E.
    + injection H as <-. apply IHa in E as (st' & R & K).
      exists st'. split; [now apply reach_alt_l|exact K].
    + apply IHb in H as (st' & R & K).
      exists st'. split; [now apply reach_alt_r|exact K].
  - revert H. generalize (List.length (rest st)) as fuel. intros fuel.
    revert st. induction fuel as [|fuel IH]; intros st H.
    + exists st. split; [apply reach_star_nil|exact H].
    + match type of H with
      | match ?t with _ => _ end = _ => destruct t as [m|] eqn:E
      end.
      * injection H as <-. apply IHa in E as (st1 & R1 & K1).
        destruct (Nat.ltb _ _); [|discriminate].
        apply IH in K1 as (st' & R' & K').
        exists st'. split; [eapply reach_star_cons; eassumption|exact K'].
      * exists st. split; [apply reach_star_nil|exact H].
  - apply IHa in H as (st' & R & K).
    eexists. split; [apply reach_group; exact R|exact K].
  - destruct (xorb _ _) eqn:E; [|discriminate].
    exists st. split; [now apply reach_wordb|exact H].
Qed.

Lemma reach_lang (ic : bool) (r : regex) (st st' : mstate) :
  reach ic r st st' -> exists w, rest st = w ++ rest st' /\ lang ic r w.
Proof.
  induction 1 as [st|cs st c s' E C|a b st1 st2 st3 _ IH1 _ IH2
                  |a b st st' _ IH|a b st st' _ IH|a st
                  |a st1 st2 st3 _ IH1 _ IH2|i a st st' _ IH|st E].
  - exists []. split; [reflexivity|constructor].
  - exists [c]. split; [exact E|now constructor].
  - destruct IH1 as (u & E1 & L1), IH2 as (v & E2 & L2).
    exists (u ++ v). split; [now rewrite E1, E2, app_assoc|now constructor].
  - destruct IH as (w & E & L). exists w. split; [exact E|now apply lang_alt_l].
  - destruct IH as (w & E & L). exists w. split; [exact E|now apply lang_alt_r].
  - exists []. split; [reflexivity|constructor].
  - destruct IH1 as (u & E1 & L1), IH2 as (v & E2 & L2).
    exists (u ++ v).
    split; [now rewrite E1, E2, app_assoc|now apply lang_star_cons].
  - destruct IH as (w & E & L). exists w. split; [exact E|now constructor].
  - exists []. split; [reflexivity|constructor].
Qed.

Lemma reach_nogroup (ic : bool) (r : regex) (st st' : mstate) :
  reach ic r st st' -> n_groups r = 0 ->
  caps st' = caps st /\ last_closed st' = last_closed st.
Proof.
  induction 1 as [st|cs st c s' E C|a b st1 st2 st3 _ IH1 _ IH2
                  |a b st st' _ IH|a b st st' _ IH|a st
                  |a st1 st2 st3 _ IH1 _ IH2|i a st st' _ IH|st E];
    cbn [n_groups]; intros Hn; try (split; reflexivity).
  - destruct IH1 as [C1 L1]; [lia|]. destruct IH2 as [C2 L2]; [lia|].
    split; congruence.
  - apply IH. lia.
  - apply IH. lia.
  - destruct (IH1 Hn) as [C1 L1]. destruct (IH2 Hn) as [C2 L2].
    split; congruence.
  - discriminate.
Qed.

Lemma firstn_app_exact {A : Type} (u v : list A) :
  firstn (List.length (u ++ v) - List.length v) (u ++ v) = u.
Proof.
  rewrite length_app, Nat.add_sub.
  rewrite firstn_app, Nat.sub_diag, firstn_all. simpl. apply app_nil_r.
Qed.

(** A group without inner groups records the text it matched. *)
Lemma reach_group_inv (ic : bool) (i : nat) (a : regex) (st st2 : mstate) :
  reach ic (Group i a) st st2 -> n_groups a = 0 ->
  exists w, lang ic a w /\ rest st = w ++ rest st2
            /\ caps st2 = (i, w) :: caps st /\ last_closed st2 = Some i.
Proof.
  intros H Hn. inversion H as [| | | | | | |i' a' st0 st' R| ]; subst.
  destruct (reach_lang _ _ _ _ R) as (w & E & L).
  destruct (reach_nogroup _ _ _ _ R Hn) as [C _].
  exists w. cbn [caps rest last_closed].
  rewrite E at 2 3. rewrite firstn_app_exact, C. auto.
Qed.

Lemma reach_seqs_chain (ic : bool) (rs : list regex) :
  forall st st', reach ic (seqs rs) st st' -> chain ic rs st st'.
Proof.
  induction rs as [|r rs IH]; intros st st' H.
  - inversion H. reflexivity.
  - destruct rs as [|r' rs'].
    + exists st'. split; [exact H|reflexivity].
    + change (seqs (r :: r' :: rs')) with (Seq r (seqs (r' :: rs'))) in H.
      inversion H as [| |a b st1 st2 st3 R1 R2| | | | | | ]; subst.
      exists st2. split; [exact R1|now apply IH].
Qed.

Lemma chain_app (ic : bool) (l1 l2 : list regex) :
  forall st st',
    chain ic (l1 ++ l2) st st' ->
    exists mid, chain ic l1 st mid /\ chain ic l2 mid st'.
Proof.
  induction l1 as [|r l1 IH]; intros st st' H.
  - exists st. split; [reflexivity|exact H].
  - destruct H as (m & R & H). apply IH in H as (mid & H1 & H2).
    exists mid. split; [exists m; split; assumption|exact H2].
Qed.

Lemma chain_suffix (ic : bool) (rs : list regex) :
  forall st st', chain ic rs st st' -> exists w, rest st = w ++ rest st'.
Proof.
  induction rs as [|r rs IH]; intros st st' H.
  - simpl in H. subst. now exists [].
  - destruct H as (m & R & H). apply IH in H as (v & E2).
    destruct (reach_lang _ _ _ _ R) as (u & E1 & _).
    exists (u ++ v). now rewrite E1, E2, app_assoc.
Qed.

Lemma chain_nogroup (ic : bool) (rs : list regex) :
  Forall (fun r => n_groups r = 0) rs ->
  forall st st', chain ic rs st st' ->
    caps st' = caps st /\ last_closed st' = last_closed st.
Proof.
  induction 1 as [|r rs Hr _ IH]; intros st st' H.
  - simpl in H. subst. auto.
  - destruct H as (m & R & H). apply IH in H as [C2 L2].
    destruct (reach_nogroup _ _ _ _ R Hr) as [C1 L1]. split; congruence.
Qed.

Lemma search_from_sound (p : pattern) (s : str) :
  forall prev m,
    search_from p prev s = Some m ->
    exists pre suf prev' st',
      s = pre ++ suf
      /\ reach (ignorecase p) (source p) (mkState prev' suf [] None) st'
      /\ m = mkMatch (caps st') (last_closed st').
Proof.
  induction s as [|c s IH]; intros prev m H; cbn [search_from] in H.
  - destruct (match_at p prev []) as [m'|] eqn:E; [|discriminate].
    injection H as <-. unfold match_at in E.
    destruct (run _ _ _ _) as [st|] eqn:R; [|discriminate].
    injection E as <-. apply run_sound in R as (st' & R & [= <-]).
    now exists [], [], prev, st'.
  - destruct (match_at p prev (c :: s)) as [m'|] eqn:E.
    + injection H as <-. unfold match_at in E.
      destruct (run _ _ _ _) as [st|] eqn:R; [|discriminate].
      injection E as <-. apply run_sound in R as (st' & R & [= <-]).
      now exists [], (c :: s), prev, st'.
    + apply IH in H as (pre & suf & prev' & st' & -> & R & ->).
      now exists (c :: pre), suf, prev', st'.
Qed.

(** ** The shape of a route match *)

Lemma lang_chr_inv (ic : bool) (cs : cset) (w : str) :
  lang ic (Chr cs) w -> exists c, w = [c] /\ cset_match ic cs c = true.
Proof. intros H. inversion H; subst. eauto. Qed.

Lemma lang_star_chr (ic : bool) (cs : cset) (w : str) :
  lang ic (Star (Chr cs)) w -> Forall (fun c => cset_match ic cs c = true) w.
Proof.
  intros H. remember (Star (Chr cs)) as r eqn:Er.
  induction H as [| | | | | |a u v Hu _ Hv IH| |]; try discriminate.
  - constructor.
  - injection Er as ->. apply lang_chr_inv in Hu as (c & -> & Hc).
    constructor; [exact Hc|now apply IH].
Qed.

Lemma lang_plus_chr (ic : bool) (cs : cset) (w : str) :
  lang ic (Plus (Chr cs)) w ->
  w <> [] /\ Forall (fun c => cset_match ic cs c = true) w.
Proof.
  intros H. inversion H as [| |a b u v Hu Hv| | | | | |]; subst.
  apply lang_chr_inv in Hu as (c & -> & Hc). apply lang_star_chr in Hv.
  split; [discriminate|now constructor].
Qed.

Lemma lang_word (ic : bool) (s : str) :
  forall w, lang ic (word s) w ->
            Forall2 (fun c d => cset_match ic (Lit d) c = true) w s.
Proof.
  induction s as [|d s IH]; intros w H.
  - inversion H. constructor.
  - destruct s as [|d' s'].
    + apply lang_chr_inv in H as (c & -> & Hc). repeat constructor. exact Hc.
    + change (word (d :: d' :: s')) with (Seq (Chr (Lit d)) (word (d' :: s')))
        in H.
      inversion H as [| |a b u v Hu Hv| | | | | |]; subst.
      apply lang_chr_inv in Hu as (c & -> & Hc).
      constructor; [exact Hc|now apply IH].
Qed.

Lemma lower_char_eq_cases (c d : char) :
  lower_char c = lower_char d ->
  c = d \/ ((65 <= c <= 90)%N /\ d = (c + 32)%N)
  \/ ((65 <= d <= 90)%N /\ c = (d + 32)%N).
Proof.
  unfold lower_char, in_range.
  destruct (N.leb_spec 65 c), (N.leb_spec c 90), (N.leb_spec 65 d),
    (N.leb_spec d 90); cbn [andb]; lia.
Qed.

Lemma upper_char_capital (c : char) :
  (65 <= c <= 90)%N -> upper_char c = c /\ upper_char (c + 32)%N = c.
Proof.
  intros Hc. unfold upper_char, in_range.
  destruct (N.leb_spec 97 c); [lia|]. cbn [andb].
  destruct (N.eqb_spec c 305); [lia|]. destruct (N.eqb_spec c 383); [lia|].
  destruct (N.leb_spec 97 (c + 32)); [|lia].
  destruct (N.leb_spec (c + 32) 122); [|lia]. cbn [andb]. lia.
Qed.

Lemma upper_of_lower_eq (c d : char) :
  lower_char c = lower_char d -> upper_char c = upper_char d.
Proof.
  intros H. apply lower_char_eq_cases in H as [->|[[Hc ->]|[Hd ->]]].
  - reflexivity.
  - destruct (upper_char_capital c Hc) as [-> ->]. reflexivity.
  - destruct (upper_char_capital d Hd) as [-> ->]. reflexivity.
Qed.

Lemma upper_of_lower_is (d x : char) :
  lower_char d = x -> (97 <= x <= 122)%N -> upper_char d = (x - 32)%N.
Proof.
  intros H Hx. unfold lower_char, in_range in H.
  destruct (N.leb_spec 65 d), (N.leb_spec d 90); cbn [andb] in H.
  - destruct (upper_char_capital d) as [-> _]; lia.
  - subst x. unfold upper_char, in_range.
    destruct (N.leb_spec 97 d), (N.leb_spec d 122); cbn [andb]; lia.
  - subst x. unfold upper_char, in_range.
    destruct (N.leb_spec 97 d), (N.leb_spec d 122); cbn [andb]; lia.
  - subst x. unfold upper_char, in_range.
    destruct (N.leb_spec 97 d), (N.leb_spec d 122); cbn [andb]; lia.
Qed.

(** What matches an ASCII literal without regard to case and has an ASCII
    upper case has the upper case of the literal. *)
Lemma match_upper (c d : char) :
  ignorecase_eq c d = true -> (upper_char c < 128)%N ->
  upper_char c = upper_char d.
Proof.
  unfold ignorecase_eq. intros H Hc.
  apply orb_true_iff in H as [H|H];
    [apply orb_true_iff in H as [H|H];
     [apply orb_true_iff in H as [H|H]|]|].
  - apply upper_of_lower_eq. now apply N.eqb_eq.
  - apply andb_true_iff in H as [Hd H]. apply N.eqb_eq in Hd.
    apply orb_true_iff in H as [H|H]; apply N.eqb_eq in H; subst c.
    + vm_compute in Hc. discriminate.
    + rewrite (upper_of_lower_is d 105%N Hd) by lia. reflexivity.
  - apply andb_true_iff in H as [Hd H]. apply N.eqb_eq in Hd, H. subst c.
    rewrite (upper_of_lower_is d 115%N Hd) by lia. reflexivity.
  - apply andb_true_iff in H as [Hd H]. apply N.eqb_eq in Hd, H. subst c.
    vm_compute in Hc. discriminate.
Qed.

(** A word matched without regard to case, when its upper case is ASCII,
    has the upper case of the word. *)
Lemma word_upper (s w : str) :
  lang true (word s) w -> ascii_text (upper w) -> upper w = upper s.
Proof.
  intros H. apply lang_word in H.
  induction H as [|c d w s Hc _ IH]; intros Ha; [reflexivity|].
  cbn [upper map] in *. fold (upper w) in *. fold (upper s).
  inversion Ha as [|x xs Hx Hxs]; subst.
  rewrite (IH Hxs). f_equal. now apply match_upper.
Qed.

Lemma lang_alt_inv (ic : bool) (a b : regex) (w : str) :
  lang ic (Alt a b) w -> lang ic a w \/ lang ic b w.
Proof. intros H. inversion H; subst; auto. Qed.

Lemma http_method_upper (w : str) :
  lang true http_methods w -> ascii_text (upper w) ->
  In (upper w) HTTP_METHODS.
Proof.
  intros H Ha. unfold http_methods in H. cbn [map alts] in H.
  repeat (apply lang_alt_inv in H as [H|H];
          [apply word_upper in H; [|exact Ha]; rewrite H; vm_compute; tauto|]).
  apply word_upper in H; [|exact Ha]. rewrite H. vm_compute. tauto.
Qed.

(** After [\(\s*["']([^"']+)]: the group holds a non-empty text without
    quotes, and a quote stood in the input. *)
Lemma open_quote_route_shape (ic : bool) (i : nat) (st st' : mstate) :
  chain ic (open_quote_route i) st st' ->
  exists w,
    caps st' = (i, w) :: caps st /\ last_closed st' = Some i
    /\ w <> [] /\ Forall no_quote w
    /\ exists c, existsb (N.eqb c) quotes = true /\ In c (rest st).
Proof.
  intros H. cbn [open_quote_route chain] in H.
  destruct H as (m1 & R1 & m2 & R2 & m3 & R3 & m4 & R4 & <-).
  destruct (reach_nogroup _ _ _ _ R1 eq_refl) as [C1 _].
  destruct (reach_nogroup _ _ _ _ R2 eq_refl) as [C2 _].
  destruct (reach_nogroup _ _ _ _ R3 eq_refl) as [C3 _].
  destruct (reach_group_inv _ _ _ _ _ R4 eq_refl) as (w & L & _ & C4 & L4).
  apply lang_plus_chr in L as [Hne Hall].
  exists w. split; [congruence|]. split; [exact L4|]. split; [exact Hne|].
  split.
  - eapply Forall_impl; [|exact Hall]. intros c Hc. unfold no_quote.
    cbn [cset_match] in Hc. now apply negb_true_iff in Hc.
  - inversion R3 as [|cs st0 c s' E Hc| | | | | | |]; subst.
    exists c. split; [exact Hc|].
    destruct (reach_lang _ _ _ _ R1) as (u & E1 & _).
    destruct (reach_lang _ _ _ _ R2) as (v & E2 & _).
    rewrite E1, E2, E. apply in_or_app. right. apply in_or_app. right.
    now left.
Qed.

(** What a match of one of the route patterns looks like: the last group
    is the one closed last and holds the route, a non-empty text without
    quotes; with three groups the second holds an HTTP method in any case;
    the line has a quote. *)
Lemma route_match_shape (p : pattern) (l : str) (m : rmatch) :
  In p route_patterns -> search p l = Some m ->
  let g := if Nat.eqb (n_groups (source p)) 3 then 3 else 1 in
  lastindex m = Some g
  /\ group m g <> [] /\ Forall no_quote (group m g)
  /\ (n_groups (source p) = 3 -> ascii_text (upper (group m 2)) ->
      In (upper (group m 2)) HTTP_METHODS)
  /\ exists c, existsb (N.eqb c) quotes = true /\ In c l.
Proof.
  intros Hp Hs. unfold search in Hs.
  apply search_from_sound in Hs as (pre & suf & prev & st' & -> & R & ->).
  assert (Hsuf : forall c, In c suf -> In c (pre ++ suf))
    by (intros; apply in_or_app; now right).
  unfold route_patterns in Hp.
  destruct Hp as [<-|[<-|[<-|[<-|[<-|[]]]]]];
    cbn [source ignorecase] in R; apply reach_seqs_chain in R.
  - apply (chain_app _ [_; _; _; _]) in R as (mid & (m1 & R1 & m2 & R2 & m3 & R3
                                                   & m4 & R4 & <-) & T).
    apply open_quote_route_shape in T as (w & C & L & Hne & Hnq & c & Hc & Hin).
    destruct (reach_nogroup _ _ _ _ R1 eq_refl) as [C1 _].
    destruct (reach_group_inv _ _ _ _ _ R2 eq_refl) as (w1 & _ & _ & C2 & _).
    destruct (reach_nogroup _ _ _ _ R3 eq_refl) as [C3 _].
    destruct (reach_group_inv _ _ _ _ _ R4 eq_refl) as (w2 & L2 & _ & C4 & _).
    assert (Hcaps : caps st' = [(3, w); (2, w2); (1, w1)])
      by (rewrite C, C4, C3, C2, C1; reflexivity).
    cbn [n_groups]. unfold group. cbn [groups lastindex Nat.eqb].
    rewrite Hcaps. cbn [group_in Nat.eqb].
    split; [exact L|]. split; [exact Hne|]. split; [exact Hnq|].
    split; [intros _ Ha; now apply http_method_upper|].
    exists c. split; [exact Hc|].
    apply Hsuf.
    destruct (reach_lang _ _ _ _ R1) as (u1 & E1 & _).
    destruct (reach_lang _ _ _ _ R2) as (u2 & E2 & _).
    destruct (reach_lang _ _ _ _ R3) as (u3 & E3 & _).
    destruct (reach_lang _ _ _ _ R4) as (u4 & E4 & _).
    cbn [rest] in E1. rewrite E1, E2, E3, E4.
    repeat (apply in_or_app; right). exact Hin.
  - apply (chain_app _ [_; _; _]) in R as (mid & F & T).
    apply open_quote_route_shape in T as (w & C & L & Hne & Hnq & c & Hc & Hin).
    destruct (fun H => chain_nogroup _ _ H _ _ F) as [C0 _];
      [repeat constructor|].
    destruct (chain_suffix _ _ _ _ F) as (u & E).
    cbn [n_groups]. unfold group. cbn [groups lastindex Nat.eqb].
    rewrite C, C0. cbn [caps group_in Nat.eqb].
    split; [exact L|]. split; [exact Hne|]. split; [exact Hnq|].
    split; [discriminate|].
    exists c. split; [exact Hc|]. apply Hsuf. cbn [rest] in E. rewrite E.
    apply in_or_app. now right.
  - apply (chain_app _ [_; _; _; _]) in R as (mid & (m1 & R1 & m2 & R2 & m3 & R3
                                                   & m4 & R4 & <-) & T).
    apply open_quote_route_shape in T as (w & C & L & Hne & Hnq & c & Hc & Hin).
    destruct (reach_nogroup _ _ _ _ R1 eq_refl) as [C1 _].
    destruct (reach_group_inv _ _ _ _ _ R2 eq_refl) as (w1 & _ & _ & C2 & _).
    destruct (reach_nogroup _ _ _ _ R3 eq_refl) as [C3 _].
    destruct (reach_group_inv _ _ _ _ _ R4 eq_refl) as (w2 & L2 & _ & C4 & _).
    assert (Hcaps : caps st' = [(3, w); (2, w2); (1, w1)])
      by (rewrite C, C4, C3, C2, C1; reflexivity).
    cbn [n_groups]. unfold group. cbn [groups lastindex Nat.eqb].
    rewrite Hcaps. cbn [group_in Nat.eqb].
    split; [exact L|]. split; [exact Hne|]. split; [exact Hnq|].
    split; [intros _ Ha; now apply http_method_upper|].
    exists c. split; [exact Hc|].
    apply Hsuf.
    destruct (reach_lang _ _ _ _ R1) as (u1 & E1 & _).
    destruct (reach_lang _ _ _ _ R2) as (u2 & E2 & _).
    destruct (reach_lang _ _ _ _ R3) as (u3 & E3 & _).
    destruct (reach_lang _ _ _ _ R4) as (u4 & E4 & _).
    cbn [rest] in E1. rewrite E1, E2, E3, E4.
    repeat (apply in_or_app; right). exact Hin.
  - apply (chain_app _ [_; _]) in R as (mid & F & T).
    apply open_quote_route_shape in T as (w & C & L & Hne & Hnq & c & Hc & Hin).
    destruct (fun H => chain_nogroup _ _ H _ _ F) as [C0 _];
      [repeat constructor|].
    destruct (chain_suffix _ _ _ _ F) as (u & E).
    cbn [n_groups]. unfold group. cbn [groups lastindex Nat.eqb].
    rewrite C, C0. cbn [caps group_in Nat.eqb].
    split; [exact L|]. split; [exact Hne|]. split; [exact Hnq|].
    split; [discriminate|].
    exists c. split; [exact Hc|]. apply Hsuf. cbn [rest] in E. rewrite E.
    apply in_or_app. now right.
  - apply (chain_app _ [_; _]) in R as (mid & F & T).
    apply open_quote_route_shape in T as (w & C & L & Hne & Hnq & c & Hc & Hin).
    destruct (fun H => chain_nogroup _ _ H _ _ F) as [C0 _];
      [repeat constructor|].
    destruct (chain_suffix _ _ _ _ F) as (u & E).
    cbn [n_groups]. unfold group. cbn [groups lastindex Nat.eqb].
    rewrite C, C0. cbn [caps group_in Nat.eqb].
    split; [exact L|]. split; [exact Hne|]. split; [exact Hnq|].
    split; [discriminate|].
    exists c. split; [exact Hc|]. apply Hsuf. cbn [rest] in E. rewrite E.
    apply in_or_app. now right.
Qed.

(** ** Route entries *)

Lemma all_entries_In (e : env) (repo_root : Path) (entry : RouteEntry) :
  In entry (all_entries e repo_root) ->
  exists f l p m,
    In f (rglob e repo_root) /\ scanned e f = true
    /\ In l (splitlines (text_of e f))
    /\ In p route_patterns /\ search p l = Some m
    /\ entry = entry_of p m (rel_path_of repo_root f) l.
Proof.
  intros Hin. unfold all_entries in Hin.
  apply in_flat_map in Hin as (f & Hf & Hin).
  unfold file_entries in Hin.
  destruct (scanned e f) eqn:Hsc; [|contradiction].
  apply in_flat_map in Hin as (l & Hl & Hin).
  unfold line_entries in Hin.
  destruct (first_match route_patterns l) as [[p m]|] eqn:Hfm; [|contradiction].
  destruct Hin as [<-|[]].
  destruct (first_match_spec _ _ _ _ Hfm) as (i & Hnth & Hsearch & _).
  exists f, l, p, m. repeat split; try assumption.
  eapply nth_error_In, Hnth.
Qed.




(** X2. A line that holds no quote character gives no entry: the scan of
    the line leaves the list as it was, for whatever file. *)
Theorem X2_no_quote_no_route (f repo_root : Path) (l : str)
    (entries : list RouteEntry) :
  Forall no_quote l ->
  scan_line route_patterns f repo_root l entries = Ok entries.
Proof.
  intros Hl.
  assert (Hnone : forall p, In p route_patterns -> search p l = None).
  { intros p Hp. destruct (search p l) as [m|] eqn:Hs; [|reflexivity].
    destruct (route_match_shape p l m Hp Hs) as (_ & _ & _ & _ & c & Hc & Hin).
    rewrite Forall_forall in Hl. specialize (Hl c Hin).
    unfold no_quote in Hl. congruence. }
  revert Hnone. generalize route_patterns as ps.
  induction ps as [|p ps IH]; intros Hnone; [reflexivity|].
  cbn [scan_line]. rewrite (Hnone p) by now left.
  apply IH. intros q Hq. apply Hnone. now right.
Qed.

Lemma X2_witness :
  Forall no_quote (lit "app.get(users)")
  /\ scan_line route_patterns Demo.a_py Demo.top (lit "app.get(users)") []
     = Ok [].
Proof.
  assert (H : Forall no_quote (lit "app.get(users)"))
    by (repeat constructor).
  split; [exact H|].
  exact (X2_no_quote_no_route Demo.a_py Demo.top (lit "app.get(users)") [] H).
Defined.

(** X3. The route scan reads regular files only, and only those whose
    extension, lower-cased, is one of [.py .js .ts .tsx .jsx]: every entry
    names such a file by its path relative to the scanned root, and a file
    of another kind contributes nothing. *)
Theorem X3_route_scan_file_filter (e : env) (repo_root : Path) :
  (forall entry, In entry (all_entries e repo_root) ->
     exists f, In f (rglob e repo_root) /\ is_file e f = true
               /\ In (lower (suffix f)) allowed_exts
               /\ file entry = rel_path_of repo_root f)
  /\ (forall f entries,
        is_file e f = false \/ ~ In (lower (suffix f)) allowed_exts ->
        scan_file e repo_root f entries = Ok entries).
Proof.
  split.
  - intros entry Hin.
    apply all_entries_In in Hin as (f & l & p & m & Hf & Hsc & _ & _ & _ & ->).
    unfold scanned in Hsc. apply andb_true_iff in Hsc as [Hfile Hext].
    exists f. split; [exact Hf|]. split; [exact Hfile|].
    split; [now apply mem_In|].
    unfold entry_of. now destruct (Nat.eqb (n_groups (source p)) 3).
  - intros f entries H. unfold scan_file.
    destruct H as [H|H].
    + now rewrite H.
    + destruct (mem (lower (suffix f)) allowed_exts) eqn:Hm.
      * apply mem_In in Hm. contradiction.
      * cbn [negb]. now rewrite orb_true_r.
Qed.

Lemma X3_witness :
  let entry := mkEntry (lit "DELETE") (lit "/gone") (lit "bad.js")
                 (lit "app.delete('/gone')") in
  let readme := mkPath false [lit "repos"; lit "app"; lit "README.md"] in
  In entry (all_entries Demo.demo_env Demo.demo_app)
  /\ ~ In (lower (suffix readme)) allowed_exts
  /\ (exists f, is_file Demo.demo_env f = true
                /\ file entry = rel_path_of Demo.demo_app f)
  /\ scan_file Demo.demo_env Demo.demo_app readme [] = Ok [].
Proof.
  intros entry readme.
  assert (H1 : In entry (all_entries Demo.demo_env Demo.demo_app))
    by (vm_compute; tauto).
  assert (H2 : ~ In (lower (suffix readme)) allowed_exts).
  { intros H. apply mem_In in H. vm_compute in H. discriminate. }
  split; [exact H1|]. split; [exact H2|].
  destruct (X3_route_scan_file_filter Demo.demo_env Demo.demo_app)
    as [Hent Hskip].
  split.
  - destruct (Hent entry H1) as (f & _ & Hf & _ & Hn).
    exists f. split; [exact Hf|exact Hn].
  - exact (Hskip readme [] (or_intror H2)).
Defined.

(** ** Which operations can raise *)

Lemma resolved_is_dir (e : env) (self : CodebaseScanner)
    (repo_name folder_path : option str) (d : Path) :
  resolve_target_dir e self repo_name folder_path = Some d ->
  exists_ e d = true /\ is_dir e d = true.
Proof.
  unfold resolve_target_dir, existing_dir.
  destruct (given folder_path) as [fp|].
  - destruct (exists_ e _ && is_dir e _)%bool eqn:H; [|discriminate].
    intros [= <-]. now apply andb_true_iff in H.
  - destruct (given repo_name) as [rn|].
    + destruct (exists_ e _ && is_dir e _)%bool eqn:H; [|discriminate].
      intros [= <-]. now apply andb_true_iff in H.
    + destruct (exists_ e _ && is_dir e _)%bool eqn:H; [|discriminate].
      intros [= <-]. now apply andb_true_iff in H.
Qed.

(** X4. Once the directory is resolved and the checks on the path have
    answered, [explain_file] answers with a message in every case: the
    directory is not found, the path does not exist, the path is not a
    regular file, or the explanation of the file, whose text is read with
    decoding errors ignored. A directory in the place of the file gets a
    message, not an exception. *)
Theorem X4_explain_file_answers (e : env) (self : CodebaseScanner)
    (file_path : str) (repo_name folder_path : option str) :
  (resolve_target_dir e self repo_name folder_path = None ->
   explain_file e self file_path repo_name folder_path
   = Ok (not_found_msg (identifier repo_name folder_path (lit "directory"))))
  /\ forall d,
       resolve_target_dir e self repo_name folder_path = Some d ->
       (exists_ e (joinpath d file_path) = false ->
        explain_file e self file_path repo_name folder_path
        = Ok (file_not_found_msg file_path
                (identifier repo_name folder_path (to_str d))))
       /\ (exists_ e (joinpath d file_path) = true ->
           is_file e (joinpath d file_path) = false ->
           explain_file e self file_path repo_name folder_path
           = Ok (file_path ++ lit " is not a file."))
       /\ (is_file e (joinpath d file_path) = true ->
           let lines := splitlines (text_of e (joinpath d file_path)) in
           explain_file e self file_path repo_name folder_path
           = Ok (format_file_explanation file_path (joinpath d file_path)
                   lines
                   (fst (fst (extract_code_elements lines)))
                   (snd (fst (extract_code_elements lines)))
                   (snd (extract_code_elements lines)))).
Proof.
  split.
  - intros Hd. unfold explain_file. now rewrite Hd.
  - intros d Hd. split; [|split].
    + intros Hex. unfold explain_file. now rewrite Hd, Hex.
    + intros Hex Hf. unfold explain_file. now rewrite Hd, Hex, Hf.
    + intros Hf lines. unfold explain_file. rewrite Hd.
      destruct (is_file_not_dir _ _ Hf) as [Hex _]. rewrite Hex, Hf.
      cbn [negb].
      destruct (read_text_file e _ Hf) as (data & s & _ & _ & Hread & _).
      rewrite Hread. cbn [bind]. fold lines.
      now destruct (extract_code_elements lines) as [[cs fs] ims].
Qed.

Lemma X4_witness :
  resolve_target_dir Demo.demo_env Demo.demo_scanner (Some (lit "app")) None
  = Some Demo.demo_app
  /\ resolve_target_dir Demo.demo_env Demo.demo_scanner (Some (lit "none"))
       None = None
  /\ exists_ Demo.demo_env (joinpath Demo.demo_app (lit "x.py")) = false
  /\ exists_ Demo.demo_env (joinpath Demo.demo_app (lit "auth")) = true
  /\ is_file Demo.demo_env (joinpath Demo.demo_app (lit "auth")) = false
  /\ is_file Demo.demo_env (joinpath Demo.demo_app (lit "bad.js")) = true
  /\ explain_file Demo.demo_env Demo.demo_scanner (lit "x.py")
       (Some (lit "none")) None
     = Ok (lit "Folder/repository 'none' not found.")
  /\ explain_file Demo.demo_env Demo.demo_scanner (lit "x.py")
       (Some (lit "app")) None
     = Ok (lit "File x.py not found in 'app'.")
  /\ explain_file Demo.demo_env Demo.demo_scanner (lit "auth")
       (Some (lit "app")) None
     = Ok (lit "auth is not a file.")
  /\ exists msg,
       explain_file Demo.demo_env Demo.demo_scanner (lit "bad.js")
         (Some (lit "app")) None = Ok msg.
Proof.
  assert (H1 : resolve_target_dir Demo.demo_env Demo.demo_scanner
                 (Some (lit "app")) None = Some Demo.demo_app)
    by (vm_compute; reflexivity).
  assert (H2 : resolve_target_dir Demo.demo_env Demo.demo_scanner
                 (Some (lit "none")) None = None)
    by (vm_compute; reflexivity).
  assert (H3 : exists_ Demo.demo_env (joinpath Demo.demo_app (lit "x.py"))
               = false) by reflexivity.
  assert (H4 : exists_ Demo.demo_env (joinpath Demo.demo_app (lit "auth"))
               = true) by reflexivity.
  assert (H5 : is_file Demo.demo_env (joinpath Demo.demo_app (lit "auth"))
               = false) by reflexivity.
  assert (H6 : is_file Demo.demo_env (joinpath Demo.demo_app (lit "bad.js"))
               = true) by reflexivity.
  split; [exact H1|]. split; [exact H2|]. split; [exact H3|].
  split; [exact H4|]. split; [exact H5|]. split; [exact H6|].
  split;
    [exact (proj1 (X4_explain_file_answers Demo.demo_env Demo.demo_scanner
                     (lit "x.py") (Some (lit "none")) None) H2)|].
  split;
    [exact (proj1 (proj2 (X4_explain_file_answers Demo.demo_env
                            Demo.demo_scanner (lit "x.py") (Some (lit "app"))
                            None) Demo.demo_app H1) H3)|].
  split;
    [exact (proj1 (proj2 (proj2 (X4_explain_file_answers Demo.demo_env
                                   Demo.demo_scanner (lit "auth")
                                   (Some (lit "app")) None) Demo.demo_app H1))
              H4 H5)|].
  eexists.
  exact (proj2 (proj2 (proj2 (X4_explain_file_answers Demo.demo_env
                                Demo.demo_scanner (lit "bad.js")
                                (Some (lit "app")) None) Demo.demo_app H1))
           H6).
Defined.

(** X5. Once the directory is resolved and the existence check has
    answered, [get_file_content] answers with a message when the directory
    is not found, when the path does not exist and when the path is a
    regular file (the rendering of the window of its lines); when the path
    is a directory it goes on to read it and raises [IsADirectoryError]. *)
Theorem X5_get_file_content_answers (e : env) (self : CodebaseScanner)
    (file_path : str) (repo_name folder_path : option str)
    (start_line num_lines : Z) :
  (resolve_target_dir e self repo_name folder_path = None ->
   get_file_content e self file_path repo_name folder_path start_line
     num_lines
   = Ok (not_found_msg (identifier repo_name folder_path (lit "directory"))))
  /\ forall d,
       resolve_target_dir e self repo_name folder_path = Some d ->
       (exists_ e (joinpath d file_path) = false ->
        get_file_content e self file_path repo_name folder_path start_line
          num_lines
        = Ok (file_not_found_msg file_path
                (identifier repo_name folder_path (lit "directory"))))
       /\ (is_dir e (joinpath d file_path) = true ->
           get_file_content e self file_path repo_name folder_path start_line
             num_lines
           = Raise IsADirectoryError)
       /\ (is_file e (joinpath d file_path) = true ->
           get_file_content e self file_path repo_name folder_path start_line
             num_lines
           = Ok (format_file_content file_path
                   (splitlines (text_of e (joinpath d file_path)))
                   start_line num_lines)).
Proof.
  split.
  - intros Hd. unfold get_file_content. now rewrite Hd.
  - intros d Hd. split; [|split].
    + intros Hex. unfold get_file_content. now rewrite Hd, Hex.
    + intros Hdir. now apply (get_file_content_on_directory _ _ _ _ _ d).
    + intros Hf. now apply get_file_content_on_file.
Qed.

Lemma X5_witness :
  resolve_target_dir Demo.demo_env Demo.demo_scanner (Some (lit "app")) None
  = Some Demo.demo_app
  /\ resolve_target_dir Demo.demo_env Demo.demo_scanner (Some (lit "none"))
       None = None
  /\ exists_ Demo.demo_env (joinpath Demo.demo_app (lit "x.py")) = false
  /\ is_dir Demo.demo_env (joinpath Demo.demo_app (lit "auth")) = true
  /\ is_file Demo.demo_env (joinpath Demo.demo_app (lit "main.py")) = true
  /\ get_file_content Demo.demo_env Demo.demo_scanner (lit "x.py")
       (Some (lit "none")) None 1 50
     = Ok (lit "Folder/repository 'none' not found.")
  /\ get_file_content Demo.demo_env Demo.demo_scanner (lit "x.py")
       (Some (lit "app")) None 1 50
     = Ok (lit "File x.py not found in 'app'.")
  /\ get_file_content Demo.demo_env Demo.demo_scanner (lit "auth")
       (Some (lit "app")) None 1 50 = Raise IsADirectoryError
  /\ exists msg,
       get_file_content Demo.demo_env Demo.demo_scanner (lit "main.py")
         (Some (lit "app")) None 1 50 = Ok msg.
Proof.
  assert (H1 : resolve_target_dir Demo.demo_env Demo.demo_scanner
                 (Some (lit "app")) None = Some Demo.demo_app)
    by (vm_compute; reflexivity).
  assert (H2 : resolve_target_dir Demo.demo_env Demo.demo_scanner
                 (Some (lit "none")) None = None)
    by (vm_compute; reflexivity).
  assert (H3 : exists_ Demo.demo_env (joinpath Demo.demo_app (lit "x.py"))
               = false) by reflexivity.
  assert (H4 : is_dir Demo.demo_env (joinpath Demo.demo_app (lit "auth"))
               = true) by reflexivity.
  assert (H5 : is_file Demo.demo_env (joinpath Demo.demo_app (lit "main.py"))
               = true) by reflexivity.
  split; [exact H1|]. split; [exact H2|]. split; [exact H3|].
  split; [exact H4|]. split; [exact H5|].
  split;
    [exact (proj1 (X5_get_file_content_answers Demo.demo_env Demo.demo_scanner
                     (lit "x.py") (Some (lit "none")) None 1 50) H2)|].
  split;
    [exact (proj1 (proj2 (X5_get_file_content_answers Demo.demo_env
                            Demo.demo_scanner (lit "x.py") (Some (lit "app"))
                            None 1 50) Demo.demo_app H1) H3)|].
  split;
    [exact (proj1 (proj2 (proj2 (X5_get_file_content_answers Demo.demo_env
                                   Demo.demo_scanner (lit "auth")
                                   (Some (lit "app")) None 1 50)
                            Demo.demo_app H1)) H4)|].
  eexists.
  exact (proj2 (proj2 (proj2 (X5_get_file_content_answers Demo.demo_env
                                Demo.demo_scanner (lit "main.py")
                                (Some (lit "app")) None 1 50)
                         Demo.demo_app H1)) H5).
Defined.

Lemma rel_paths_loop (e : env) (target_dir : Path) (files : list Path) :
  (forall f, In f files -> In f (rglob e target_dir)) ->
  for_ files (fun f acc => rel <- relative_to f target_dir ;;
                           Ok (acc ++ [to_str rel])) []
  = Ok (map (rel_path_of target_dir) files).
Proof.
  intros Hsub.
  rewrite (for_appends _ (fun f => [rel_path_of target_dir f])).
  - cbn [app]. apply f_equal. clear Hsub.
    induction files as [|f fs IH]; [reflexivity|].
    cbn [flat_map map app]. now rewrite IH.
  - intros f acc Hin.
    destruct (rglob_rel_path_of _ _ _ (Hsub f Hin)) as (rel & Hrel & Hstr).
    rewrite Hrel. cbn [bind]. now rewrite Hstr.
Qed.

Section SearchTotal.
Variable fuzzy_match : str -> str -> fuzzy_result.
Variable highlight_match : str -> str -> str.

Lemma fuzzy_search_files_spec (e : env) (self : CodebaseScanner) (query : str)
    (repo_name folder_path : option str) (max_results : Z) (d : Path) :
  resolve_target_dir e self repo_name folder_path = Some d ->
  get_code_files e d <> [] ->
  fuzzy_search_files fuzzy_match highlight_match e self query repo_name
    folder_path max_results
  = Ok match score_files_fuzzy fuzzy_match highlight_match query
               (map (rel_path_of d) (get_code_files e d)) with
       | [] => lit "No files found matching '" ++ query ++ lit "'."
       | scored_files => format_search_results query scored_files max_results
       end.
Proof.
  intros Hd Hfiles. unfold fuzzy_search_files. rewrite Hd.
  pose proof (rel_paths_loop e d (get_code_files e d)
                (fun f H => proj1 (get_code_files_In e d f H))) as Hloop.
  destruct (get_code_files e d) as [|f0 fs]; [contradiction|].
  rewrite Hloop. cbn [bind].
  now destruct (score_files_fuzzy _ _ _ _).
Qed.

(** X6. Once the directory resolution has answered, path search and
    feature recommendation answer with a message: the directory is not
    found; it has no code file; or, for path search, the formatting of the
    list that [score_files_fuzzy] gives for the relative paths of the code
    files (the no-match message when that list is empty), and for the
    recommendation the formatting of the first five files by total. *)
Theorem X6_search_and_recommend_answers (e : env)
    (self : CodebaseScanner) (text : str)
    (repo_name folder_path : option str) (max_results : Z) :
  let ident := identifier repo_name folder_path (lit "directory") in
  (resolve_target_dir e self repo_name folder_path = None ->
   fuzzy_search_files fuzzy_match highlight_match e self text repo_name
     folder_path max_results = Ok (not_found_msg ident)
   /\ recommend_files fuzzy_match e self text repo_name folder_path
      = Ok (not_found_msg ident))
  /\ forall d,
       resolve_target_dir e self repo_name folder_path = Some d ->
       (get_code_files e d = [] ->
        fuzzy_search_files fuzzy_match highlight_match e self text repo_name
          folder_path max_results
        = Ok (lit "No code files found in '" ++ ident ++ lit "'.")
        /\ recommend_files fuzzy_match e self text repo_name folder_path
           = Ok (lit "No code files found in '" ++ ident ++ lit "'."))
       /\ (get_code_files e d <> [] ->
           fuzzy_search_files fuzzy_match highlight_match e self text
             repo_name folder_path max_results
           = Ok match score_files_fuzzy fuzzy_match highlight_match text
                        (map (rel_path_of d) (get_code_files e d)) with
                | [] => lit "No files found matching '" ++ text ++ lit "'."
                | scored_files => format_search_results text scored_files
                                    max_results
                end
           /\ recommend_files fuzzy_match e self text repo_name folder_path
              = Ok (format_recommendations text
                      (firstn 5 (sorted_reverse fst
                                   (kept fuzzy_match e d
                                      (split (lower text))))))).
Proof.
  intros ident. split.
  - intros Hd. unfold fuzzy_search_files, recommend_files. now rewrite Hd.
  - intros d Hd. split.
    + intros Hf. unfold fuzzy_search_files, recommend_files.
      now rewrite Hd, Hf.
    + intros Hf. split.
      * now apply fuzzy_search_files_spec.
      * now apply recommend_files_spec.
Qed.

End SearchTotal.

Lemma X6_witness :
  resolve_target_dir Demo.demo_env Demo.demo_scanner (Some (lit "app")) None
  = Some Demo.demo_app
  /\ resolve_target_dir Demo.demo_env Demo.demo_scanner (Some (lit "none"))
       None = None
  /\ get_code_files Demo.demo_env Demo.demo_app <> []
  /\ recommend_files Demo.demo_fuzzy Demo.demo_env Demo.demo_scanner
       (lit "login") (Some (lit "none")) None
     = Ok (lit "Folder/repository 'none' not found.")
  /\ exists msg,
       fuzzy_search_files Demo.demo_fuzzy Demo.demo_highlight Demo.demo_env
         Demo.demo_scanner (lit "login") (Some (lit "app")) None 15 = Ok msg.
Proof.
  assert (H1 : resolve_target_dir Demo.demo_env Demo.demo_scanner
                 (Some (lit "app")) None = Some Demo.demo_app)
    by (vm_compute; reflexivity).
  assert (H0 : resolve_target_dir Demo.demo_env Demo.demo_scanner
                 (Some (lit "none")) None = None)
    by (vm_compute; reflexivity).
  assert (H2 : get_code_files Demo.demo_env Demo.demo_app <> [])
    by (vm_compute; discriminate).
  split; [exact H1|]. split; [exact H0|]. split; [exact H2|].
  split.
  - exact (proj2 (proj1 (X6_search_and_recommend_answers Demo.demo_fuzzy
                           Demo.demo_highlight Demo.demo_env Demo.demo_scanner
                           (lit "login") (Some (lit "none")) None 15) H0)).
  - eexists.
    exact (proj1 (proj2 (proj2 (X6_search_and_recommend_answers
                                  Demo.demo_fuzzy Demo.demo_highlight
                                  Demo.demo_env Demo.demo_scanner
                                  (lit "login") (Some (lit "app")) None 15)
                           Demo.demo_app H1) H2)).
Defined.

(** ** Looking for definitions *)

Section Finding.
Variable fuzzy_match : str -> str -> fuzzy_result.
Variable candidate : str -> bool.

Lemma find_in_file_spec (e : env) (target_dir : Path) (name : str)
    (f : Path) (matches : list location) :
  In f (get_code_files e target_dir) ->
  find_in_file fuzzy_match candidate e target_dir name f matches
  = Ok (matches
        ++ flat_map (find_hit fuzzy_match candidate target_dir name f)
             (numbered 1 (splitlines (text_of e f)))).
Proof.
  intros Hin. apply get_code_files_In in Hin as (Hglob & Hfile & _).
  destruct (read_text_file e f Hfile) as (data & s & _ & _ & Hread & _).
  destruct (rglob_rel_path_of _ _ _ Hglob) as (rel & Hrel & Hstr).
  unfold find_in_file. rewrite Hread. cbn [bind].
  apply for_appends. intros [i l] acc _.
  unfold find_step, find_hit. cbn [fst snd].
  destruct (candidate l); cbn [andb]; [|now rewrite app_nil_r].
  destruct (good_score _); [|now rewrite app_nil_r].
  rewrite Hrel. cbn [bind]. now rewrite Hstr.
Qed.

Lemma find_matches_spec (e : env) (target_dir : Path) (name : str) :
  find_matches fuzzy_match candidate e target_dir name
  = Ok (flat_map
          (fun f => flat_map (find_hit fuzzy_match candidate target_dir name f)
                      (numbered 1 (splitlines (text_of e f))))
          (get_code_files e target_dir)).
Proof.
  unfold find_matches.
  rewrite (for_appends _
             (fun f => flat_map (find_hit fuzzy_match candidate target_dir name f)
                         (numbered 1 (splitlines (text_of e f)))));
    [reflexivity|].
  intros f acc Hin. now apply find_in_file_spec.
Qed.

Lemma find_matches_genuine (e : env) (target_dir : Path) (name : str) :
  exists matches,
    find_matches fuzzy_match candidate e target_dir name = Ok matches
    /\ Forall (genuine fuzzy_match candidate e target_dir name) matches.
Proof.
  eexists. split; [apply find_matches_spec|].
  apply Forall_forall. intros m Hm.
  apply in_flat_map in Hm as (f & Hf & Hm).
  apply in_flat_map in Hm as ([i l] & Hil & Hm).
  unfold find_hit in Hm. cbn [fst snd] in Hm.
  destruct (candidate l) eqn:Hc; cbn [andb] in Hm; [|contradiction].
  destruct (good_score _) eqn:Hg; [|contradiction].
  destruct Hm as [<-|[]].
  apply numbered_In in Hil as [Hi Hnth].
  exists f, l. cbn [fst snd]. repeat split; try assumption.
  unfold good_score in Hg. apply andb_true_iff in Hg as [_ Hg].
  now apply Z.leb_le.
Qed.

End Finding.

(** X7. Once the directory resolution has answered, the searches for a
    function and for a class answer with a message. For a directory not
    found it is the not-found message of the directory. On a resolved
    directory they answer from a list of locations (relative path, line
    number, stripped line) in which every location is a line of a code
    file, at that 1-based number, that holds the marker ([def ] or
    [function ]; [class ]) and that the matcher scores 1 at least against
    the lower-cased name; the answer is the not-found message of the name
    exactly when that list is empty. *)
Theorem X7_find_definitions (fuzzy_match : str -> str -> fuzzy_result)
    (e : env) (self : CodebaseScanner) (name : str)
    (repo_name folder_path : option str) :
  let ident := identifier repo_name folder_path (lit "directory") in
  (resolve_target_dir e self repo_name folder_path = None ->
   find_function_definition fuzzy_match e self name repo_name folder_path
   = Ok (not_found_msg ident)
   /\ find_class_definition fuzzy_match e self name repo_name folder_path
      = Ok (not_found_msg ident))
  /\ forall d,
       resolve_target_dir e self repo_name folder_path = Some d ->
       (exists matches,
          Forall (genuine fuzzy_match is_function_line e d name) matches
          /\ find_function_definition fuzzy_match e self name repo_name
               folder_path
             = Ok match matches with
                  | [] => lit "Function matching '" ++ name
                          ++ lit "' not found in '" ++ ident ++ lit "'."
                  | _ => format_locations (lit "functions") name matches
                  end)
       /\ (exists matches,
             Forall (genuine fuzzy_match is_class_def_line e d name) matches
             /\ find_class_definition fuzzy_match e self name repo_name
                  folder_path
                = Ok match matches with
                     | [] => lit "Class matching '" ++ name
                             ++ lit "' not found in '" ++ ident ++ lit "'."
                     | _ => format_locations (lit "classes") name matches
                     end).
Proof.
  intros ident. split.
  - intros Hd. unfold find_function_definition, find_class_definition.
    now rewrite Hd.
  - intros d Hd. split.
    + destruct (find_matches_genuine fuzzy_match is_function_line e d name)
        as (matches & Hfind & Hall).
      exists matches. split; [exact Hall|].
      unfold find_function_definition. rewrite Hd, Hfind. cbn [bind].
      now destruct matches.
    + destruct (find_matches_genuine fuzzy_match is_class_def_line e d name)
        as (matches & Hfind & Hall).
      exists matches. split; [exact Hall|].
      unfold find_class_definition. rewrite Hd, Hfind. cbn [bind].
      now destruct matches.
Qed.

Lemma X7_witness :
  resolve_target_dir Demo.demo_env Demo.demo_scanner (Some (lit "app")) None
  = Some Demo.demo_app
  /\ resolve_target_dir Demo.demo_env Demo.demo_scanner (Some (lit "none"))
       None = None
  /\ find_class_definition Demo.demo_fuzzy Demo.demo_env Demo.demo_scanner
       (lit "Login") (Some (lit "none")) None
     = Ok (lit "Folder/repository 'none' not found.")
  /\ exists matches,
       Forall (genuine Demo.demo_fuzzy is_function_line Demo.demo_env
                 Demo.demo_app (lit "Login")) matches
       /\ find_function_definition Demo.demo_fuzzy Demo.demo_env
            Demo.demo_scanner (lit "Login") (Some (lit "app")) None
          = Ok match matches with
               | [] => lit "Function matching '" ++ lit "Login"
                       ++ lit "' not found in '"
                       ++ identifier (Some (lit "app")) None (lit "directory")
                       ++ lit "'."
               | _ => format_locations (lit "functions") (lit "Login") matches
               end.
Proof.
  assert (H1 : resolve_target_dir Demo.demo_env Demo.demo_scanner
                 (Some (lit "app")) None = Some Demo.demo_app)
    by (vm_compute; reflexivity).
  assert (H0 : resolve_target_dir Demo.demo_env Demo.demo_scanner
                 (Some (lit "none")) None = None)
    by (vm_compute; reflexivity).
  split; [exact H1|]. split; [exact H0|].
  split.
  - exact (proj2 (proj1 (X7_find_definitions Demo.demo_fuzzy Demo.demo_env
                           Demo.demo_scanner (lit "Login")
                           (Some (lit "none")) None) H0)).
  - exact (proj1 (proj2 (X7_find_definitions Demo.demo_fuzzy Demo.demo_env
                           Demo.demo_scanner (lit "Login")
                           (Some (lit "app")) None) Demo.demo_app H1)).
Defined.

(** ** The directory worked on *)

(** X8. A directory that [resolve_target_dir] answers exists and is a
    directory; a [folder_path] that is given makes [repo_name] irrelevant;
    empty strings count as arguments not given. *)
Theorem X8_resolve_target_dir (e : env) (self : CodebaseScanner)
    (repo_name folder_path : option str) :
  (forall d, resolve_target_dir e self repo_name folder_path = Some d ->
             exists_ e d = true /\ is_dir e d = true /\ is_file e d = false)
  /\ (forall fp other, truthy fp = true ->
        resolve_target_dir e self repo_name (Some fp)
        = resolve_target_dir e self other (Some fp))
  /\ resolve_target_dir e self (Some []) (Some [])
     = resolve_target_dir e self None None.
Proof.
  split; [|split].
  - intros d Hd. destruct (resolved_is_dir _ _ _ _ _ Hd) as [Hex Hdir].
    split; [exact Hex|]. split; [exact Hdir|].
    now apply is_dir_exists.
  - intros fp other Hfp. unfold resolve_target_dir, given. now rewrite Hfp.
  - reflexivity.
Qed.

Lemma X8_witness :
  resolve_target_dir Demo.demo_env Demo.demo_scanner (Some (lit "app")) None
  = Some Demo.demo_app
  /\ is_dir Demo.demo_env Demo.demo_app = true
  /\ resolve_target_dir Demo.demo_env Demo.demo_scanner (Some (lit "app"))
       (Some (lit "repos"))
     = resolve_target_dir Demo.demo_env Demo.demo_scanner None
         (Some (lit "repos")).
Proof.
  assert (H1 : resolve_target_dir Demo.demo_env Demo.demo_scanner
                 (Some (lit "app")) None = Some Demo.demo_app)
    by (vm_compute; reflexivity).
  split; [exact H1|].
  split.
  - exact (proj1 (proj2 (proj1 (X8_resolve_target_dir Demo.demo_env
                                  Demo.demo_scanner (Some (lit "app")) None)
                           Demo.demo_app H1))).
  - exact (proj1 (proj2 (X8_resolve_target_dir Demo.demo_env
                           Demo.demo_scanner (Some (lit "app")) None))
             (lit "repos") None eq_refl).
Defined.

(** X9. [set_codebase_path] changes the root only when the path, resolved,
    is an existing directory; the new root is then that absolute path and
    the operations called without [repo_name] and [folder_path] work on it;
    otherwise the scanner is left as it was. *)
Theorem X9_set_codebase_path (e : env) (self : CodebaseScanner)
    (directory_path : str) :
  let path := resolve e (expanduser e (parse directory_path)) in
  let self' := fst (set_codebase_path e self directory_path) in
  (is_dir e path = true ->
   codebase_root self' = path /\ absolute (codebase_root self') = true
   /\ resolve_target_dir e self' None None = Some path
   /\ snd (set_codebase_path e self directory_path)
      = lit "Codebase path set to " ++ to_str path)
  /\ (is_dir e path = false -> self' = self).
Proof.
  intros path self'. unfold self', set_codebase_path. fold path. split.
  - intros Hdir. destruct (is_dir_exists _ _ Hdir) as [Hex _].
    rewrite Hex, Hdir. cbn [negb fst snd codebase_root].
    split; [reflexivity|]. split; [reflexivity|]. split; [|reflexivity].
    unfold resolve_target_dir, existing_dir. cbn [given codebase_root].
    now rewrite Hex, Hdir.
  - intros Hdir. rewrite Hdir. cbn [negb].
    now destruct (exists_ e path).
Qed.

Lemma X9_witness :
  let path := resolve Demo.demo_env
                (expanduser Demo.demo_env (parse (lit "repos/app/../app"))) in
  is_dir Demo.demo_env path = true
  /\ path = mkPath true [lit "repos"; lit "app"]
  /\ resolve_target_dir Demo.demo_env
       (fst (set_codebase_path Demo.demo_env Demo.demo_scanner
               (lit "repos/app/../app"))) None None
     = Some path
  /\ is_dir Demo.demo_env (resolve Demo.demo_env (parse (lit "nowhere")))
     = false
  /\ fst (set_codebase_path Demo.demo_env Demo.demo_scanner (lit "nowhere"))
     = Demo.demo_scanner.
Proof.
  intros path.
  assert (H1 : is_dir Demo.demo_env path = true) by reflexivity.
  assert (H2 : is_dir Demo.demo_env
                 (resolve Demo.demo_env
                    (expanduser Demo.demo_env (parse (lit "nowhere"))))
               = false) by reflexivity.
  split; [exact H1|]. split; [reflexivity|].
  split.
  - exact (proj1 (proj2 (proj2 (proj1 (X9_set_codebase_path Demo.demo_env
                                         Demo.demo_scanner
                                         (lit "repos/app/../app")) H1)))).
  - split; [exact H2|].
    exact (proj2 (X9_set_codebase_path Demo.demo_env Demo.demo_scanner
                    (lit "nowhere")) H2).
Defined.

(** ** Listing the repositories *)

Lemma name_child (p : Path) (k : str) :
  name (mkPath (absolute p) (parts p ++ [k])) = k.
Proof. unfold name. cbn [parts]. apply last_last. Qed.

(** X10. [list_repositories] answers that the root does not exist when it
    does not, raises [NotADirectoryError] when the root is a regular file,
    and for a directory lists, in the order of the directory, the names of
    its entries that are directories and do not start with a dot, or says
    that there are none. *)
Theorem X10_list_repositories (e : env) (self : CodebaseScanner) :
  let root_dir := codebase_root self in
  (exists_ e root_dir = false ->
   list_repositories e self
   = Ok (lit "Directory " ++ to_str root_dir ++ lit " does not exist."))
  /\ (is_file e root_dir = true ->
      list_repositories e self = Raise NotADirectoryError)
  /\ (forall es, lookup e root_dir = Some (Dir es) ->
      let repos :=
        filter (fun k => is_dir e (mkPath (absolute root_dir)
                                          (parts root_dir ++ [k]))
                         && negb (startswith k (lit ".")))%bool
               (map fst es) in
      list_repositories e self
      = Ok match repos with
           | [] => lit "No repositories found in " ++ to_str root_dir
                   ++ lit ". Clone a repo first!"
           | _ => lit "Available repositories ("
                  ++ of_nat (List.length repos) ++ lit "):" ++ [10%N]
                  ++ join [10%N] (map (fun repo => lit "  - " ++ repo) repos)
           end).
Proof.
  intros root_dir. split; [|split].
  - intros H. unfold list_repositories. fold root_dir. now rewrite H.
  - intros H. unfold list_repositories. fold root_dir.
    destruct (is_file_not_dir _ _ H) as [Hex _]. rewrite Hex.
    cbn [negb]. unfold iterdir. unfold is_file in H.
    destruct (lookup e root_dir) as [[data|es]|]; try discriminate.
    reflexivity.
  - intros es Hl repos. unfold list_repositories. fold root_dir.
    assert (Hex : exists_ e root_dir = true) by (unfold exists_; now rewrite Hl).
    rewrite Hex. cbn [negb]. unfold iterdir. rewrite Hl. cbn [bind].
    assert (Hvis : visible_dirs e
                     (map (fun kn => mkPath (absolute root_dir)
                                       (parts root_dir ++ [fst kn])) es)
                   = repos).
    { unfold visible_dirs, repos. clear. induction es as [|[k n] es IH];
        [reflexivity|].
      cbn [map filter fst]. rewrite name_child.
      destruct (is_dir e _ && negb (startswith k (lit ".")))%bool;
        cbn [map]; [rewrite name_child|]; now rewrite IH. }
    rewrite Hvis. now destruct repos.
Qed.

Lemma X10_witness :
  let missing := mkScanner (mkPath false [lit "nowhere"]) in
  let on_file := mkScanner (mkPath false [lit "repos"; lit "app";
                                          lit "main.py"]) in
  exists_ Demo.demo_env (codebase_root missing) = false
  /\ is_file Demo.demo_env (codebase_root on_file) = true
  /\ list_repositories Demo.demo_env on_file = Raise NotADirectoryError
  /\ list_repositories Demo.demo_env missing
     = Ok (lit "Directory nowhere does not exist.")
  /\ list_repositories Demo.demo_env Demo.demo_scanner
     = Ok (lit "Available repositories (1):" ++ [10%N] ++ lit "  - app").
Proof.
  intros missing on_file.
  assert (H1 : exists_ Demo.demo_env (codebase_root missing) = false)
    by reflexivity.
  assert (H2 : is_file Demo.demo_env (codebase_root on_file) = true)
    by reflexivity.
  split; [exact H1|]. split; [exact H2|].
  split;
    [exact (proj1 (proj2 (X10_list_repositories Demo.demo_env on_file)) H2)|].
  split; [exact (proj1 (X10_list_repositories Demo.demo_env missing) H1)|].
  exact (proj2 (proj2 (X10_list_repositories Demo.demo_env Demo.demo_scanner))
           _ eq_refl).
Defined.

(** ** One line, one entry at most *)

Lemma line_contribution (i : nat) (l : str) :
  List.length (line_classes i l) + List.length (line_functions i l)
  + List.length (line_imports l) <= 1.
Proof.
  unfold line_classes, line_functions, line_imports, is_public_def_line,
    is_import_line, is_def_line.
  destruct (is_class_line l); cbn [negb andb List.length]; [lia|].
  destruct (startswith (strip l) (lit "def ")); cbn [negb andb List.length].
  - destruct (negb _); cbn [List.length]; lia.
  - destruct (_ || _)%bool; cbn [List.length]; lia.
Qed.

Lemma numbered_length {A : Type} (i : nat) (l : list A) :
  List.length (numbered i l) = List.length l.
Proof.
  revert i. induction l as [|x l IH]; intros i; simpl; [reflexivity|].
  now rewrite IH.
Qed.

Lemma contributions_bound (nl : list (nat * str)) :
  List.length (flat_map (fun jl => line_classes (fst jl) (snd jl)) nl)
  + List.length (flat_map (fun jl => line_functions (fst jl) (snd jl)) nl)
  + List.length (flat_map (fun jl => line_imports (snd jl)) nl)
  <= List.length nl.
Proof.
  induction nl as [|[j l] nl IH]; [simpl; lia|].
  cbn [flat_map fst snd]. rewrite !length_app. cbn [List.length].
  pose proof (line_contribution j l). lia.
Qed.

(** X11. A line gives the structural extractor one entry at most, in one
    of the three lists: classes, functions and imports together never
    number more than the lines looked at, so never more than 100. *)
Theorem X11_extract_one_entry_per_line (lines : list str) :
  let classes := fst (fst (extract_code_elements lines)) in
  let functions := snd (fst (extract_code_elements lines)) in
  let imports := snd (extract_code_elements lines) in
  List.length classes + List.length functions + List.length imports
  <= Nat.min 100 (List.length lines).
Proof.
  intros classes functions imports.
  unfold classes, functions, imports, extract_code_elements.
  rewrite extract_loop_spec. cbn [fst snd app].
  pose proof (contributions_bound (numbered 1 (firstn 100 lines))) as H.
  rewrite numbered_length, length_firstn in H. exact H.
Qed.

(** ** The numbers shown by [get_file_content] *)

Lemma enumerate_In {A : Type} (start i : Z) (x : A) (l : list A) :
  In (i, x) (enumerate start l) ->
  exists k, i = (start + Z.of_nat k)%Z /\ nth_error l k = Some x.
Proof.
  revert start. induction l as [|y l IH]; intros start; simpl;
    [contradiction|].
  intros [[= <- <-]|Hin].
  - exists 0. split; [lia|reflexivity].
  - apply IH in Hin as (k & -> & Hk). exists (S k). split; [lia|exact Hk].
Qed.

(** X12. For [start_line >= 1] and [num_lines >= 0] every line that
    [get_file_content] shows carries its own 1-based number in the file,
    between [start_line] and [start_line + num_lines - 1], and when
    [start_line] is not beyond the end the last number shown plus the
    count of lines announced as remaining is the length of the file. For
    [start_line <= 0] the window starts at the first line of the file, which
    is shown under the number [start_line]. *)
Theorem X12_file_content_numbers (lines : list str) (start_line num_lines : Z) :
  let start_idx := fst (fst (window lines start_line num_lines)) in
  let end_idx := snd (fst (window lines start_line num_lines)) in
  let selected := snd (window lines start_line num_lines) in
  ((1 <= start_line)%Z -> (0 <= num_lines)%Z ->
   (forall i l, In (i, l) (enumerate start_line selected) ->
      nth_error lines (Z.to_nat (i - 1)) = Some l
      /\ (start_line <= i < start_line + num_lines)%Z)
   /\ ((start_line - 1 <= Z.of_nat (List.length lines))%Z ->
       (start_idx + Z.of_nat (List.length selected)
        + (Z.of_nat (List.length lines) - end_idx)
        = Z.of_nat (List.length lines))%Z))
  /\ ((start_line <= 0)%Z -> (1 <= num_lines)%Z ->
      hd_error (enumerate start_line selected)
      = option_map (pair start_line) (hd_error lines)).
Proof.
  intros start_idx end_idx selected.
  unfold start_idx, end_idx, selected, window. cbn [fst snd].
  split.
  - intros Hs Hn.
    rewrite slice_inside by lia.
    rewrite Z.max_r by lia.
    set (e' := Z.min (Z.of_nat (List.length lines)) (start_line - 1 + num_lines)).
    split.
    + intros i l Hin. apply enumerate_In in Hin as (k & -> & Hk).
      rewrite nth_error_firstn in Hk.
      destruct (Nat.ltb_spec k (Z.to_nat (e' - (start_line - 1))));
        [|discriminate].
      rewrite nth_error_skipn in Hk.
      replace (Z.to_nat (start_line + Z.of_nat k - 1))
        with (Z.to_nat (start_line - 1) + k) by lia.
      split; [exact Hk|]. unfold e' in *. lia.
    + intros Hin. rewrite length_firstn, length_skipn. unfold e'. lia.
  - intros Hs Hn.
    rewrite slice_inside by lia.
    rewrite Z.max_l by lia. cbn [Z.to_nat skipn].
    destruct lines as [|l0 ls]; [now rewrite firstn_nil|].
    replace (Z.to_nat (Z.min (Z.of_nat (List.length (l0 :: ls)))
                         (0 + num_lines) - 0))
      with (S (Z.to_nat (Z.min (Z.of_nat (List.length (l0 :: ls)))
                           (0 + num_lines) - 1)))
      by (cbn [List.length]; lia).
    reflexivity.
Qed.

Lemma X12_witness :
  let lines := map lit ["a"; "b"; "c"; "d"; "e"; "f"; "g"; "h"; "i"; "j"] in
  (1 <= 3)%Z /\ (0 <= 4)%Z /\ (0 <= 0)%Z /\ (1 <= 2)%Z
  /\ In (4%Z, lit "d") (enumerate 3 (snd (window lines 3 4)))
  /\ nth_error lines (Z.to_nat (4 - 1)) = Some (lit "d")
  /\ hd_error (enumerate 0 (snd (window lines 0 2)))
     = Some (0%Z, lit "a").
Proof.
  intros lines.
  assert (H1 : (1 <= 3)%Z) by lia. assert (H2 : (0 <= 4)%Z) by lia.
  assert (H3 : (0 <= 0)%Z) by lia. assert (H4 : (1 <= 2)%Z) by lia.
  assert (H5 : In (4%Z, lit "d") (enumerate 3 (snd (window lines 3 4))))
    by (vm_compute; tauto).
  split; [exact H1|]. split; [exact H2|]. split; [exact H3|].
  split; [exact H4|]. split; [exact H5|].
  split.
  - exact (proj1 (proj1 (proj1 (X12_file_content_numbers lines 3 4) H1 H2)
                    4%Z (lit "d") H5)).
  - exact (proj2 (X12_file_content_numbers lines 0 2) H3 H4).
Defined.

(** ** The name of a cloned repository *)

Lemma split_char_aux_parts (sep : char) (s cur : str) :
  ~ In sep cur ->
  Forall (fun part => ~ In sep part) (split_char_aux sep s cur).
Proof.
  revert cur. induction s as [|c s IH]; intros cur Hcur; cbn [split_char_aux].
  - constructor; [|constructor]. now rewrite <- in_rev.
  - destruct (N.eqb_spec c sep) as [->|Hne].
    + constructor; [now rewrite <- in_rev|]. apply IH. intros [].
    + apply IH. intros [H|H]; [now apply Hne|now apply Hcur].
Qed.

Lemma split_char_aux_nonempty (sep : char) (s cur : str) :
  split_char_aux sep s cur <> [].
Proof.
  revert cur. induction s as [|c s IH]; intros cur; cbn [split_char_aux];
    [discriminate|].
  destruct (N.eqb c sep); [discriminate|apply IH].
Qed.

Lemma split_char_aux_whole (sep : char) (s cur : str) :
  ~ In sep s -> split_char_aux sep s cur = [rev cur ++ s].
Proof.
  revert cur. induction s as [|c s IH]; intros cur Hs; cbn [split_char_aux].
  - now rewrite app_nil_r.
  - destruct (N.eqb_spec c sep) as [->|Hne]; [exfalso; apply Hs; now left|].
    rewrite IH by (intros H; apply Hs; now right).
    cbn [rev]. now rewrite <- app_assoc.
Qed.

Lemma last_cons_nonempty {A : Type} (x : A) (l : list A) (d : A) :
  l <> [] -> last (x :: l) d = last l d.
Proof. destruct l; [contradiction|reflexivity]. Qed.

Lemma split_char_aux_last (sep : char) (pre name cur : str) :
  ~ In sep name ->
  last (split_char_aux sep (pre ++ sep :: name) cur) [] = name.
Proof.
  intros Hname. revert cur.
  induction pre as [|c pre IH]; intros cur; cbn [app split_char_aux].
  - rewrite N.eqb_refl, (split_char_aux_whole _ _ _ Hname). reflexivity.
  - destruct (N.eqb c sep); [|apply IH].
    rewrite last_cons_nonempty by apply split_char_aux_nonempty. apply IH.
Qed.

Lemma last_Forall {A : Type} (P : A -> Prop) (l : list A) (d : A) :
  Forall P l -> P d -> P (last l d).
Proof.
  induction 1 as [|x l Hx Hl IH]; intros Hd; [exact Hd|].
  destruct l as [|y l]; [exact Hx|]. now apply IH.
Qed.

Lemma rstrip_by_snoc (p : char -> bool) (s : str) (c : char) :
  p c = true -> rstrip_by p (s ++ [c]) = rstrip_by p s.
Proof.
  intros Hc. unfold rstrip_by. rewrite rev_unit. cbn [dropwhile].
  now rewrite Hc.
Qed.

Lemma rstrip_by_keeps (p : char -> bool) (s : str) (c : char) :
  p c = false -> rstrip_by p (s ++ [c]) = s ++ [c].
Proof.
  intros Hc. unfold rstrip_by. rewrite rev_unit. cbn [dropwhile].
  rewrite Hc. cbn [rev]. now rewrite rev_involutive.
Qed.

(** X13. The name a repository is cloned under is never empty and holds
    no [/]; a trailing [/] of the URL does not change it; and when the URL
    ends with [/name], [name] being non-empty and without [/], the name is
    [name]. *)
Theorem X13_repo_name_of (github_url : str) :
  Github.repo_name_of github_url <> []
  /\ ~ In slash (Github.repo_name_of github_url)
  /\ Github.repo_name_of (github_url ++ [slash])
     = Github.repo_name_of github_url
  /\ forall name, name <> [] -> ~ In slash name ->
       Github.repo_name_of (github_url ++ slash :: name) = name.
Proof.
  unfold Github.repo_name_of. split; [|split; [|split]].
  - destruct (last _ _) as [|c s] eqn:E; cbn [truthy]; discriminate.
  - destruct (truthy (last _ _)) eqn:E.
    + apply last_Forall; [|intros []].
      apply split_char_aux_parts. intros [].
    + vm_compute. intros H. repeat (destruct H as [H|H]; [discriminate|]).
      exact H.
  - now rewrite rstrip_by_snoc by apply N.eqb_refl.
  - intros name Hne Hname.
    destruct (exists_last Hne) as (body & c & Hbody).
    assert (Hc : N.eqb slash c = false).
    { apply N.eqb_neq. intros <-. apply Hname. rewrite Hbody.
      apply in_or_app. right. now left. }
    replace (github_url ++ slash :: name)
      with ((github_url ++ slash :: body) ++ [c])
      by (rewrite Hbody, <- app_assoc; reflexivity).
    rewrite rstrip_by_keeps by exact Hc.
    replace ((github_url ++ slash :: body) ++ [c])
      with (github_url ++ slash :: name)
      by (rewrite Hbody, <- app_assoc; reflexivity).
    unfold split_char. rewrite (split_char_aux_last _ _ _ _ Hname).
    destruct name; [contradiction|reflexivity].
Qed.

Lemma X13_witness :
  lit "code-agent" <> []
  /\ ~ In slash (lit "code-agent")
  /\ Github.repo_name_of (lit "https://github.com/RyanTan182/code-agent")
     = lit "code-agent".
Proof.
  assert (H1 : lit "code-agent" <> []) by discriminate.
  assert (H2 : ~ In slash (lit "code-agent")).
  { vm_compute. intros H. repeat (destruct H as [H|H]; [discriminate|]).
    exact H. }
  split; [exact H1|]. split; [exact H2|].
  exact (proj2 (proj2 (proj2 (X13_repo_name_of
                                (lit "https://github.com/RyanTan182"))))
           (lit "code-agent") H1 H2).
Defined.

(** ** A blank feature description *)

Lemma space_not_upper (c : char) : is_space c = true -> lower_char c = c.
Proof.
  intros Hs. unfold lower_char.
  destruct (in_range 65 90 c) eqn:Hr; [|reflexivity].
  unfold in_range in Hr. apply andb_true_iff in Hr as [H1 H2].
  apply N.leb_le in H1, H2.
  assert (Hf : is_space c = false); [|congruence].
  unfold is_space, in_range.
  repeat (apply orb_false_intro);
    try (apply N.eqb_neq; lia);
    apply andb_false_iff;
    ((left; apply N.leb_gt; lia) || (right; apply N.leb_gt; lia)).
Qed.

Lemma split_aux_blank (s : str) :
  Forall (fun c => is_space c = true) s -> split_aux s [] = [].
Proof.
  induction 1 as [|c s Hc _ IH]; [reflexivity|].
  cbn [split_aux]. now rewrite Hc.
Qed.

Lemma split_lower_blank (s : str) :
  Forall (fun c => is_space c = true) s -> split (lower s) = [].
Proof.
  intros H. unfold split. apply split_aux_blank. unfold lower.
  induction H as [|c s Hc _ IH]; [constructor|].
  cbn [map]. constructor; [|exact IH].
  now rewrite (space_not_upper c Hc).
Qed.

(** X14. For a feature description that is empty or made of white space
    only there is no keyword, every total is 0 and no file is recommended:
    the answer has its heading and its closing line and no file between
    them. *)
Theorem X14_blank_description_recommends_nothing
    (fuzzy_match : str -> str -> fuzzy_result) (e : env)
    (self : CodebaseScanner) (feature_description : str)
    (repo_name folder_path : option str) (target_dir : Path) :
  Forall (fun c => is_space c = true) feature_description ->
  resolve_target_dir e self repo_name folder_path = Some target_dir ->
  get_code_files e target_dir <> [] ->
  recommended fuzzy_match e (get_code_files e target_dir) target_dir
    feature_description = Ok []
  /\ recommend_files fuzzy_match e self feature_description repo_name
       folder_path
     = Ok (lit "Recommended files for: '" ++ feature_description ++ lit "'"
           ++ [10%N; 10%N; 10%N]
           ++ lit "Use explain_file() to learn what each file does.").
Proof.
  intros Hblank Hd Hfiles.
  assert (Hkept : kept fuzzy_match e target_dir
                    (split (lower feature_description)) = []).
  { rewrite (split_lower_blank _ Hblank). unfold kept. clear Hfiles.
    induction (get_code_files e target_dir) as [|f fs IH]; [reflexivity|].
    cbn [map filter]. exact IH. }
  split.
  - rewrite recommended_spec, Hkept. reflexivity.
  - rewrite (recommend_files_spec _ _ _ _ _ _ target_dir Hd Hfiles), Hkept.
    reflexivity.
Qed.

Lemma X14_witness :
  Forall (fun c => is_space c = true) (lit "  ")
  /\ resolve_target_dir Demo.demo_env Demo.demo_scanner (Some (lit "app")) None
     = Some Demo.demo_app
  /\ get_code_files Demo.demo_env Demo.demo_app <> []
  /\ recommended Demo.demo_fuzzy Demo.demo_env
       (get_code_files Demo.demo_env Demo.demo_app) Demo.demo_app (lit "  ")
     = Ok [].
Proof.
  assert (H0 : Forall (fun c => is_space c = true) (lit "  "))
    by (repeat constructor).
  assert (H1 : resolve_target_dir Demo.demo_env Demo.demo_scanner
                 (Some (lit "app")) None = Some Demo.demo_app)
    by (vm_compute; reflexivity).
  assert (H2 : get_code_files Demo.demo_env Demo.demo_app <> [])
    by (vm_compute; discriminate).
  split; [exact H0|]. split; [exact H1|]. split; [exact H2|].
  exact (proj1 (X14_blank_description_recommends_nothing Demo.demo_fuzzy
                  Demo.demo_env Demo.demo_scanner (lit "  ")
                  (Some (lit "app")) None Demo.demo_app H0 H1 H2)).
Defined.
